(** * ran-simulator: cell identities, UE registry and KPM service model

  A shallow embedding of
    - [pkg/model/types.go]        (module [Model]),
    - [pkg/store/ues/ues.go]      (module [Ues]),
    - the KPM service-model client (module [Kpm]),
    - [pkg/utils/indication/indication.go] (module [Indication]),
    - the E2 agent                 (module [Agent]),
  and the properties of them that the specification relies on.

  Conventions.  Go's fixed-width unsigned integers are [Z] with the
  wrap-around written out ([wrap w]); [uint] is taken at its 64-bit width.
  Go maps are [gmap]s; pointers are locations into an explicit heap, so that
  aliasing between the registry and its callers is visible. *)

From Stdlib Require Import ZArith Lia.
From Stdlib Require Import Floats.PrimFloat.
From Stdlib Require Import Strings.Byte.
From stdpp Require Import gmap strings list fin_maps.

Local Open Scope Z_scope.

(** Conversion to a [w]-bit unsigned integer type: Go truncates. *)
Definition wrap (w x : Z) : Z := x mod 2 ^ w.

(** Conversion to [int32]: truncation, read in two's complement. *)
Definition int32 (x : Z) : Z := (x + 2 ^ 31) mod 2 ^ 32 - 2 ^ 31.

(** Conversion to [int] (64 bits). *)
Definition int64 (x : Z) : Z := (x + 2 ^ 63) mod 2 ^ 64 - 2 ^ 63.

(** The typed errors of onos-lib-go: [errors.New(errors.NotFound, "...")]. *)
Inductive errorType : Set := NotFound | NotSupported | Invalid | Unknown.

Record error : Set := errors_New { errType : errorType; errMsg : string }.

(** A Go result pair [(v, err)]: either the value with a nil error, or a nil
    value with the error. *)
Inductive result (A : Type) : Type :=
| Ok (a : A)
| Fail (e : error).
Arguments Ok {A} a.
Arguments Fail {A} e.

(* ===================================================================== *)
(** ** pkg/model/types.go *)
(* ===================================================================== *)

Module Model.

Definition mask28 : Z := 0xfffffff.
Definition mask20 : Z := 0xfffff00.

(** [ECI(uint(enbID)<<8 | uint(cid))]; [ECI] is a [uint32]. *)
Definition ToECI (enbID cid : Z) : Z :=
  wrap 32 (Z.lor (wrap 64 (Z.shiftl enbID 8)) cid).

(** [ECGI(uint(plmnID)<<28 | (uint(eci) & mask28))]; [ECGI] is a [uint64]. *)
Definition ToECGI (plmnID eci : Z) : Z :=
  wrap 64 (Z.lor (wrap 64 (Z.shiftl plmnID 28)) (Z.land eci mask28)).

(** [GEnbID(uint(plmnID)<<28 | (uint(enbID) << 8 & mask20))]. *)
Definition ToGEnbID (plmnID enbID : Z) : Z :=
  wrap 64 (Z.lor (wrap 64 (Z.shiftl plmnID 28))
                 (Z.land (wrap 64 (Z.shiftl enbID 8)) mask20)).

(** [PlmnID(id >> 28)]; [PlmnID] is a [uint32]. *)
Definition GetPlmnID (id : Z) : Z := wrap 32 (Z.shiftr id 28).

(** [CellID(id & 0xff)]; [CellID] is a [uint8]. *)
Definition GetCellID (id : Z) : Z := wrap 8 (Z.land id 0xff).

(** [EnbID((id & mask20) >> 8)]; [EnbID] is a [uint32]. *)
Definition GetEnbID (id : Z) : Z := wrap 32 (Z.shiftr (Z.land id mask20) 8).

(** [ECI(id & mask28)]. *)
Definition GetECI (id : Z) : Z := wrap 32 (Z.land id mask28).

End Model.

(* ===================================================================== *)
(** ** pkg/store/ues/ues.go *)
(* ===================================================================== *)

Module Ues.

Definition minIMSI : Z := 1000000.
Definition maxIMSI : Z := 9999999.

(** Event types ([uint8]). *)
Definition NONE : Z := 0.
Definition ADDED : Z := 1.
Definition UPDATED : Z := 2.
Definition DELETED : Z := 3.

Record Coordinate : Set := { Lat : float; Lng : float }.

Record UECell : Set := { ID : Z; ECGI : Z; Strength : float }.

(** [model.UE], with the fields [CreateUEs] fills in.  [Cell] is a pointer in
    the source; the cell record is allocated together with its UE and no code
    copies a UE or shares its cell, so it is kept inside the UE object. *)
Record UE : Set := {
  IMSI : Z;
  UEType : string;
  Location : Coordinate;
  Rotation : Z;
  Cell : UECell;
  CRNTI : Z;
  Cells : list UECell;
  IsAdmitted : bool
}.

(** [UEEvent]: a pointer to the UE and the event type. *)
Record UEEvent : Set := { EvUE : nat; EvType : Z }.

Record WatchOptions : Set := { Replay : bool; Monitor : bool }.

(** What a channel's receiver has been handed so far, and whether the channel
    has been closed.  The receiver is taken to be always ready. *)
Record sink : Set := { received : list UEEvent; closed : bool }.

(** The registry ([ues], [watchers]) and the memory around it: the UE objects
    its pointers refer to, the channels handed to [WatchUEs], and the number
    of values drawn so far from [math/rand] and the cell store. *)
Record state : Type := {
  ues : gmap Z nat;
  watchers : list nat;
  heap : gmap nat UE;
  chans : gmap nat sink;
  drawn : nat
}.

Definition set_ues (m : gmap Z nat) (s : state) : state :=
  {| ues := m; watchers := watchers s; heap := heap s; chans := chans s;
     drawn := drawn s |}.

Definition set_watchers (w : list nat) (s : state) : state :=
  {| ues := ues s; watchers := w; heap := heap s; chans := chans s;
     drawn := drawn s |}.

Definition set_heap (h : gmap nat UE) (s : state) : state :=
  {| ues := ues s; watchers := watchers s; heap := h; chans := chans s;
     drawn := drawn s |}.

Definition set_chans (c : gmap nat sink) (s : state) : state :=
  {| ues := ues s; watchers := watchers s; heap := heap s; chans := c;
     drawn := drawn s |}.

(** [ue.Cell.ECGI = ecgi; ue.Cell.Strength = strength]. *)
Definition setCell (ecgi : Z) (strength : float) (ue : UE) : UE :=
  {| IMSI := IMSI ue; UEType := UEType ue; Location := Location ue;
     Rotation := Rotation ue;
     Cell := {| ID := ID (Cell ue); ECGI := ecgi; Strength := strength |};
     CRNTI := CRNTI ue; Cells := Cells ue; IsAdmitted := IsAdmitted ue |}.

(** A channel the registry has not touched yet is open and empty. *)
Definition chanOf (cs : gmap nat sink) (ch : nat) : sink :=
  default {| received := []; closed := false |} (cs !! ch).

(** [ch <- ev].  Sending on a closed channel panics ([None]). *)
Definition send (ch : nat) (ev : UEEvent) (cs : gmap nat sink)
  : option (gmap nat sink) :=
  if closed (chanOf cs ch) then None
  else Some (<[ch := {| received := received (chanOf cs ch) ++ [ev];
                        closed := false |}]> cs).

(** [close(ch)].  Closing a closed channel panics. *)
Definition close (ch : nat) (cs : gmap nat sink) : option (gmap nat sink) :=
  if closed (chanOf cs ch) then None
  else Some (<[ch := {| received := received (chanOf cs ch);
                        closed := true |}]> cs).

(** [for _, watcher := range r.watchers { watcher.ch <- event }]. *)
Fixpoint notifyEach (ws : list nat) (ev : UEEvent) (cs : gmap nat sink)
  : option (gmap nat sink) :=
  match ws with
  | [] => Some cs
  | w :: ws' => cs' ← send w ev cs; notifyEach ws' ev cs'
  end.

Definition notify (ue : nat) (eventType : Z) (s : state) : option state :=
  cs ← notifyEach (watchers s) {| EvUE := ue; EvType := eventType |} (chans s);
  Some (set_chans cs s).

Definition GetUECount (s : state) : Z := wrap 64 (Z.of_nat (size (ues s))).

Definition GetUE (imsi : Z) (s : state) : result nat :=
  match ues s !! imsi with
  | Some node => Ok node
  | None => Fail (errors_New NotFound "UE not found")
  end.

Definition DestroyUE (imsi : Z) (s : state) : option (result nat * state) :=
  match ues s !! imsi with
  | Some ue =>
      s' ← notify ue DELETED (set_ues (delete imsi (ues s)) s);
      Some (Ok ue, s')
  | None => Some (Fail (errors_New NotFound "UE not found"), s)
  end.

Definition MoveUE (imsi ecgi : Z) (strength : float) (s : state)
  : option (option error * state) :=
  match ues s !! imsi with
  | Some ue =>
      s' ← notify ue UPDATED (set_heap (alter (setCell ecgi strength) ue (heap s)) s);
      Some (None, s')
  | None => Some (Some (errors_New NotFound "UE not found"), s)
  end.

(** Every channel on the watcher list is still open. *)
Definition sinks_open (s : state) : Prop :=
  Forall (fun w => closed (chanOf (chans s) w) = false) (watchers s).

(** How many entries of the watcher list wrap channel [ch]. *)
Definition occurrences (ch : nat) (ws : list nat) : nat :=
  length (filter (fun w => w = ch) ws).

Section Registry.

(** The sources of nondeterminism, indexed by the number of values drawn
    before: [rand.Int63n], [rand.Float64], the ECGI of the cell that
    [cellStore.GetRandomCell()] answers with, and the order in which [range]
    walks a map (Go leaves it unspecified). *)
Variable Int63n : nat -> Z -> Z.
Variable Float64 : nat -> float.
Variable GetRandomCell : nat -> Z.
Variable rangeOrder : gmap Z nat -> list (Z * nat).

(** [types.IMSI(rand.Int63n(maxIMSI-minIMSI) + minIMSI)]. *)
Definition drawIMSI (k : nat) : Z :=
  wrap 64 (Int63n k (maxIMSI - minIMSI) + minIMSI).

(** One iteration of the loop of [CreateUEs], for loop index [i]. *)
Definition createUE (i : Z) (s : state) : state :=
  let k := drawn s in
  let first := drawIMSI k in
  let '(imsi, k1) :=
    if decide (is_Some (ues s !! first))
    then (drawIMSI (S k), S (S k))
    else (first, S k) in
  let ecgi := GetRandomCell k1 in
  let ue :=
    {| IMSI := imsi;
       UEType := "phone";
       Location := {| Lat := 0; Lng := 0 |};
       Rotation := 0;
       Cell := {| ID := ecgi; ECGI := ecgi;
                  Strength := (Float64 (S k1) * 100)%float |};
       CRNTI := wrap 32 (wrap 64 (90125 + i));
       Cells := [];
       IsAdmitted := false |} in
  let p := fresh (dom (heap s)) in
  {| ues := <[imsi := p]> (ues s);
     watchers := watchers s;
     heap := <[p := ue]> (heap s);
     chans := chans s;
     drawn := S (S k1) |}.

Fixpoint createLoop (n : nat) (i : Z) (s : state) : state :=
  match n with
  | O => s
  | S n' => createLoop n' (i + 1) (createUE i s)
  end.

(** [for i := uint(0); i < count; i++ { ... }]. *)
Definition CreateUEs (count : Z) (s : state) : state :=
  createLoop (Z.to_nat count) 0 s.

(** The body of [removeSomeUEs], over the keys [range] still has to visit. *)
Fixpoint removeLoop (keys : list Z) (c : Z) (s : state) : option state :=
  match keys with
  | [] => Some s
  | imsi :: rest =>
      if decide (c = 0) then Some s
      else r ← DestroyUE imsi s; removeLoop rest (int64 (c - 1)) r.2
  end.

Definition removeSomeUEs (count : Z) (s : state) : option state :=
  removeLoop (rangeOrder (ues s)).*1 count s.

Definition SetUECount (count : Z) (s : state) : option state :=
  let delta := int64 (Z.of_nat (size (ues s)) - int64 count) in
  if delta <? 0 then Some (CreateUEs (wrap 64 (- delta)) s)
  else if 0 <? delta then removeSomeUEs delta s
  else Some s.

(** [NewUERegistry(count, cellStore)]. *)
Definition NewUERegistry (count : Z) : state :=
  CreateUEs count
    {| ues := ∅; watchers := []; heap := ∅; chans := ∅; drawn := 0 |}.

Definition ListAllUEs (s : state) : list nat := (rangeOrder (ues s)).*2.

Definition ListUEs (ecgi : Z) (s : state) : list nat :=
  filter (fun p => (ECGI ∘ Cell) <$> heap s !! p = Some ecgi)
         (rangeOrder (ues s)).*2.

(** [for _, ue := range r.ues { ch <- UEEvent{UE: ue, Type: NONE} }]. *)
Fixpoint replayEach (us : list nat) (ch : nat) (cs : gmap nat sink)
  : option (gmap nat sink) :=
  match us with
  | [] => Some cs
  | ue :: us' =>
      cs' ← send ch {| EvUE := ue; EvType := NONE |} cs; replayEach us' ch cs'
  end.

(** [WatchUEs(ch, options...)] starts a goroutine and returns.  This is the
    body of that goroutine, applied to the registry as it is when the
    goroutine runs; the call itself and the scheduling of the goroutine are
    in [step] below. *)
Definition WatchUEs (ch : nat) (options : list WatchOptions) (s : state)
  : option state :=
  let monitor :=
    match options with [] => true | o :: _ => Monitor o end in
  let replay :=
    match options with [] => false | o :: _ => Replay o end in
  let s1 := if monitor then set_watchers (watchers s ++ [ch]) s else s in
  if replay then
    cs ← replayEach (rangeOrder (ues s1)).*2 ch (chans s1);
    if monitor then Some (set_chans cs s1)
    else cs' ← close ch cs; Some (set_chans cs' s1)
  else Some s1.

(** A registry together with the goroutines that calls of [WatchUEs] have
    started and that have not run yet. *)
Record program : Type := {
  registry : state;
  pending : list (nat * list WatchOptions)
}.

(** What moves a program on: a call by the registry's user, or the
    scheduler running one of the pending goroutines.  The call
    [WatchUEs(ch, options...)] itself only computes [monitor] and [replay]
    and starts its goroutine: when it returns the registry is as it was. *)
Inductive Step : Type :=
| CallWatchUEs (ch : nat) (options : list WatchOptions)
| RunGoroutine (k : nat)
| CallMoveUE (imsi ecgi : Z) (strength : float)
| CallDestroyUE (imsi : Z).

(** [None]: a panic, or a goroutine that does not exist. *)
Definition step (st : Step) (p : program) : option program :=
  match st with
  | CallWatchUEs ch options =>
      Some {| registry := registry p;
              pending := pending p ++ [(ch, options)] |}
  | RunGoroutine k =>
      g ← pending p !! k;
      s' ← WatchUEs g.1 g.2 (registry p);
      Some {| registry := s'; pending := delete k (pending p) |}
  | CallMoveUE imsi ecgi strength =>
      r ← MoveUE imsi ecgi strength (registry p);
      Some {| registry := r.2; pending := pending p |}
  | CallDestroyUE imsi =>
      r ← DestroyUE imsi (registry p);
      Some {| registry := r.2; pending := pending p |}
  end.

Fixpoint steps (l : list Step) (p : program) : option program :=
  match l with
  | [] => Some p
  | st :: l' => p' ← step st p; steps l' p'
  end.

End Registry.

(** A run of the generators, used in the examples below: [rand.Int63n]
    answers 5 when an even number of values has been drawn before and 7
    otherwise (so the IMSI draws of three UEs in a row are 5, 7, then 5 and,
    on the retry, 7), [rand.Float64] one half, the cell store always the same
    cell, and [range] walks a map in the order of [map_to_list]. *)
Definition sampleInt63n (k : nat) (n : Z) : Z := if Nat.even k then 5 else 7.
Definition sampleFloat64 (k : nat) : float := 0.5%float.
Definition sampleCell (k : nat) : Z := 0x13a1234567.
Definition sampleOrder (m : gmap Z nat) : list (Z * nat) := map_to_list m.

Definition sampleRegistry (count : Z) : state :=
  NewUERegistry sampleInt63n sampleFloat64 sampleCell count.

(** A registry of one UE (IMSI 1000005, at address 0) watched through
    channel 7. *)
Definition watchedRegistry : state :=
  set_watchers [7%nat] (sampleRegistry 1).

(** The registry's UEs all lie in the IMSI band, each stored under its own
    IMSI. *)
Definition imsi_invariant (s : state) : Prop :=
  forall i p, ues s !! i = Some p ->
    exists ue, heap s !! p = Some ue /\ IMSI ue = i /\ minIMSI <= i <= maxIMSI.

(** Distinct IMSIs are stored at distinct addresses. *)
Definition pointers_distinct (s : state) : Prop :=
  forall i j p, ues s !! i = Some p -> ues s !! j = Some p -> i = j.

(** [rand.Int63n] as in [sampleInt63n], kept below the bound it is given. *)
Definition boundedInt63n (k : nat) (n : Z) : Z := sampleInt63n k n mod n.

(** Two UEs (IMSIs 1000005 and 1000007, at addresses 0 and 1) watched
    through channel 7. *)
Definition watchedPair : state :=
  set_watchers [7%nat]
    (NewUERegistry boundedInt63n sampleFloat64 sampleCell 2).

End Ues.

(* ===================================================================== *)
(** ** pkg/utils/indication/indication.go *)
(* ===================================================================== *)

Module Indication.

Record Indication : Set := {
  reqID : Z;
  ricInstanceID : Z;
  ranFuncID : Z;
  indicationHeader : list byte;
  indicationMessage : list byte;
  ricCallProcessID : list byte
}.

(** [WithRequestID] and the other options: each assigns one field. *)
Definition WithRequestID (x : Z) (i : Indication) : Indication :=
  {| reqID := x; ricInstanceID := ricInstanceID i; ranFuncID := ranFuncID i;
     indicationHeader := indicationHeader i;
     indicationMessage := indicationMessage i;
     ricCallProcessID := ricCallProcessID i |}.

Definition WithRanFuncID (x : Z) (i : Indication) : Indication :=
  {| reqID := reqID i; ricInstanceID := ricInstanceID i; ranFuncID := x;
     indicationHeader := indicationHeader i;
     indicationMessage := indicationMessage i;
     ricCallProcessID := ricCallProcessID i |}.

Definition WithRicInstanceID (x : Z) (i : Indication) : Indication :=
  {| reqID := reqID i; ricInstanceID := x; ranFuncID := ranFuncID i;
     indicationHeader := indicationHeader i;
     indicationMessage := indicationMessage i;
     ricCallProcessID := ricCallProcessID i |}.

Definition WithIndicationHeader (h : list byte) (i : Indication) : Indication :=
  {| reqID := reqID i; ricInstanceID := ricInstanceID i;
     ranFuncID := ranFuncID i;
     indicationHeader := h;
     indicationMessage := indicationMessage i;
     ricCallProcessID := ricCallProcessID i |}.

Definition WithIndicationMessage (m : list byte) (i : Indication) : Indication :=
  {| reqID := reqID i; ricInstanceID := ricInstanceID i;
     ranFuncID := ranFuncID i;
     indicationHeader := indicationHeader i;
     indicationMessage := m;
     ricCallProcessID := ricCallProcessID i |}.

(** [NewIndication(options...)]: the options applied in turn to the zero
    value. *)
Definition NewIndication (options : list (Indication -> Indication))
  : Indication :=
  foldl (fun i option => option i)
        {| reqID := 0; ricInstanceID := 0; ranFuncID := 0;
           indicationHeader := []; indicationMessage := [];
           ricCallProcessID := [] |}
        options.

Inductive RicindicationType : Set :=
| RICINDICATION_TYPE_REPORT
| RICINDICATION_TYPE_INSERT.

(** The values carried by the information elements of
    [e2appducontents.Ricindication] (their ids, criticality and presence are
    constants of the protocol library). *)
Record Ricindication : Set := {
  RicRequestorId : Z;
  RicInstanceId : Z;
  RanfunctionId : Z;
  RicactionId : Z;
  RicindicationSn : Z;
  RicindicationTypeValue : RicindicationType;
  RicindicationHeader : list byte;
  RicindicationMessage : list byte;
  RiccallProcessId : list byte
}.

Definition CreateIndication (indication : Indication) : Ricindication :=
  {| RicRequestorId := reqID indication;
     RicInstanceId := ricInstanceID indication;
     RanfunctionId := ranFuncID indication;
     RicactionId := 2;
     RicindicationSn := 3;
     RicindicationTypeValue := RICINDICATION_TYPE_REPORT;
     RicindicationHeader := indicationHeader indication;
     RicindicationMessage := indicationMessage indication;
     RiccallProcessId := ricCallProcessID indication |}.

(** The options of the package, as data: which field an option assigns, and
    the value it assigns. *)
Inductive Setting : Set :=
| SetRequestID (x : Z)
| SetRanFuncID (x : Z)
| SetRicInstanceID (x : Z)
| SetIndicationHeader (h : list byte)
| SetIndicationMessage (m : list byte).

Definition optionOf (s : Setting) : Indication -> Indication :=
  match s with
  | SetRequestID x => WithRequestID x
  | SetRanFuncID x => WithRanFuncID x
  | SetRicInstanceID x => WithRicInstanceID x
  | SetIndicationHeader h => WithIndicationHeader h
  | SetIndicationMessage m => WithIndicationMessage m
  end.

Definition requestIDOf (s : Setting) : option Z :=
  match s with SetRequestID x => Some x | _ => None end.

Definition ranFuncIDOf (s : Setting) : option Z :=
  match s with SetRanFuncID x => Some x | _ => None end.

Definition ricInstanceIDOf (s : Setting) : option Z :=
  match s with SetRicInstanceID x => Some x | _ => None end.

Definition headerOf (s : Setting) : option (list byte) :=
  match s with SetIndicationHeader h => Some h | _ => None end.

Definition messageOf (s : Setting) : option (list byte) :=
  match s with SetIndicationMessage m => Some m | _ => None end.

(** The value the last of the [settings] picked by [pick] gives, [zero] when
    none is picked. *)
Definition lastSet {A : Type} (pick : Setting -> option A) (zero : A)
    (settings : list Setting) : A :=
  default zero (last (omap pick settings)).

End Indication.

(* ===================================================================== *)
(** ** The Subscription Registry *)
(* ===================================================================== *)

Module Subscriptions.

(** A recurring timer ([time.Ticker]): its period in nanoseconds, and whether
    it still sends ticks ("after Stop, no more ticks will be sent"). *)
Record time_Ticker : Set := { period : Z; running : bool }.

(** Modelled from the spec: [pkg/store/subscriptions] is absent from src.
    A Subscription record is kept under the triple (instance id, requester
    id, function id) and holds the admitted actions, the rejected ones with
    their cause, a handle to the owning session and a recurring-timer handle,
    attached after creation, once the reporting task starts.  The fields
    [Ticker] and [E2Channel] are the ones the handlers of src use; the timer
    handle is a pointer into the tickers of the program. *)
Record Subscription : Set := {
  ID : Z * Z * Z;
  Accepted : list Z;
  Rejected : list (Z * Z);
  E2Channel : nat;
  Ticker : option nat
}.

(** Modelled from the spec: [subscriptions.NewID] is absent from src; the
    key is the triple (instance id, requester id, function id), in the order
    of the arguments the handlers pass. *)
Definition NewID (ricInstanceID reqID ranFuncID : Z) : Z * Z * Z :=
  (ricInstanceID, reqID, ranFuncID).

(** Modelled from the spec: the registry's create, absent from src, stores
    the record under its key. *)
Definition Add (sub : Subscription) (store : gmap (Z * Z * Z) Subscription)
  : gmap (Z * Z * Z) Subscription :=
  <[ID sub := sub]> store.

(** Modelled from the spec: the registry's point lookup, absent from src,
    fails with [NotFound] on a miss. *)
Definition Get (id : Z * Z * Z) (store : gmap (Z * Z * Z) Subscription)
  : result Subscription :=
  match store !! id with
  | Some sub => Ok sub
  | None => Fail (errors_New NotFound "subscription not found")
  end.

(** Modelled from the spec: the registry's delete, absent from src. *)
Definition Remove (id : Z * Z * Z) (store : gmap (Z * Z * Z) Subscription)
  : gmap (Z * Z * Z) Subscription :=
  delete id store.

(** [sub.Ticker = t], on the record the store holds. *)
Definition setTicker (t : nat) (sub : Subscription) : Subscription :=
  {| ID := ID sub; Accepted := Accepted sub; Rejected := Rejected sub;
     E2Channel := E2Channel sub; Ticker := Some t |}.

End Subscriptions.

(* ===================================================================== *)
(** ** The KPM service model client *)
(* ===================================================================== *)

Module Kpm.

(** [e2apies.RicactionType]. *)
Definition RICACTION_TYPE_REPORT : Z := 0.
Definition RICACTION_TYPE_INSERT : Z := 1.
Definition RICACTION_TYPE_POLICY : Z := 2.

Inductive CauseRicrequest : Set :=
| CAUSE_RICREQUEST_ACTION_NOT_SUPPORTED
| CAUSE_RICREQUEST_UNSPECIFIED.

Inductive Cause : Set :=
| Cause_RicRequest (RicRequest : CauseRicrequest).

(** An entry of the request's list of actions to be set up: its action id
    and its action type. *)
Record RicAction : Set := { RicActionId : Z; RicActionType : Z }.

(** [subutils.Subscription], the value from which a subscription response or
    failure is built.  Its fields are those the options used by the handler
    assign. *)
Record Subscription : Type := {
  reqID : Z;
  ranFuncID : Z;
  ricInstanceID : Z;
  ricActionsAccepted : list Z;
  ricActionsNotAdmitted : gmap Z Cause;
  cause : option Cause
}.

Definition WithRequestID (x : Z) (s : Subscription) : Subscription :=
  {| reqID := x; ranFuncID := ranFuncID s; ricInstanceID := ricInstanceID s;
     ricActionsAccepted := ricActionsAccepted s;
     ricActionsNotAdmitted := ricActionsNotAdmitted s; cause := cause s |}.

Definition WithRanFuncID (x : Z) (s : Subscription) : Subscription :=
  {| reqID := reqID s; ranFuncID := x; ricInstanceID := ricInstanceID s;
     ricActionsAccepted := ricActionsAccepted s;
     ricActionsNotAdmitted := ricActionsNotAdmitted s; cause := cause s |}.

Definition WithRicInstanceID (x : Z) (s : Subscription) : Subscription :=
  {| reqID := reqID s; ranFuncID := ranFuncID s; ricInstanceID := x;
     ricActionsAccepted := ricActionsAccepted s;
     ricActionsNotAdmitted := ricActionsNotAdmitted s; cause := cause s |}.

Definition WithActionsAccepted (l : list Z) (s : Subscription) : Subscription :=
  {| reqID := reqID s; ranFuncID := ranFuncID s;
     ricInstanceID := ricInstanceID s;
     ricActionsAccepted := l;
     ricActionsNotAdmitted := ricActionsNotAdmitted s; cause := cause s |}.

Definition WithActionsNotAdmitted (m : gmap Z Cause) (s : Subscription)
  : Subscription :=
  {| reqID := reqID s; ranFuncID := ranFuncID s;
     ricInstanceID := ricInstanceID s;
     ricActionsAccepted := ricActionsAccepted s;
     ricActionsNotAdmitted := m; cause := cause s |}.

Definition WithCause (c : Cause) (s : Subscription) : Subscription :=
  {| reqID := reqID s; ranFuncID := ranFuncID s;
     ricInstanceID := ricInstanceID s;
     ricActionsAccepted := ricActionsAccepted s;
     ricActionsNotAdmitted := ricActionsNotAdmitted s; cause := Some c |}.

(** Modelled from the spec: [subutils.NewSubscription] is absent from src;
    like [indication.NewIndication] it applies its options, plain field
    assignments, to the zero value. *)
Definition NewSubscription (options : list (Subscription -> Subscription))
  : Subscription :=
  foldl (fun s option => option s)
        {| reqID := 0; ranFuncID := 0; ricInstanceID := 0;
           ricActionsAccepted := []; ricActionsNotAdmitted := ∅;
           cause := None |}
        options.

(** [subdeleteutils.SubscriptionDelete], built by [NewSubscriptionDelete]
    from the three identifiers. *)
Record SubscriptionDelete : Set := {
  delReqID : Z;
  delRanFuncID : Z;
  delRicInstanceID : Z
}.

(** [kpmutils.NewIndicationHeader] and [NewIndicationMessage] with the
    options the report task passes. *)
Record IndicationHeader : Set := {
  plmnID : Z;
  gNbID : Z;
  sst : string;
  sd : string;
  plmnIDnrcgi : Z
}.

Record IndicationMessage : Set := { numberOfActiveUes : Z }.

(** The collaborators of the handler that live outside src: the request and
    response messages of the protocol library with the accessors and builders
    of [pkg/utils/e2ap], the handler's own [getReportPeriod], and the
    encoders of the model plugin.  Each may fail as its Go signature allows. *)
Record E2AP : Type := {
  RicsubscriptionRequest : Type;
  RicsubscriptionResponse : Type;
  RicsubscriptionFailure : Type;
  RicsubscriptionDeleteRequest : Type;
  RicsubscriptionDeleteResponse : Type;
  GetRicActionToBeSetupList : RicsubscriptionRequest -> list RicAction;
  GetRequesterID : RicsubscriptionRequest -> result Z;
  GetRanFunctionID : RicsubscriptionRequest -> result Z;
  GetRicInstanceID : RicsubscriptionRequest -> result Z;
  getReportPeriod : RicsubscriptionRequest -> result Z;
  BuildSubscriptionResponse : Subscription -> result RicsubscriptionResponse;
  BuildSubscriptionFailure : Subscription -> result RicsubscriptionFailure;
  DeleteGetRequesterID : RicsubscriptionDeleteRequest -> result Z;
  DeleteGetRanFunctionID : RicsubscriptionDeleteRequest -> result Z;
  DeleteGetRicInstanceID : RicsubscriptionDeleteRequest -> result Z;
  BuildSubscriptionDeleteResponse :
    SubscriptionDelete -> result RicsubscriptionDeleteResponse;
  HeaderToAsn1Bytes : IndicationHeader -> result (list byte);
  MessageToAsn1Bytes : IndicationMessage -> result (list byte);
  Validate : Indication.Ricindication -> option error
}.

(** What the client reads of [sm.ServiceModel]: the node's gNB id and the
    model's PLMN id.  The two stores it points to are part of [World]. *)
Record ServiceModel : Set := { GnbID : Z; PlmnID : Z }.

(** A call of one of the model plugin's encoders. *)
Inductive Encoding : Set :=
| EncodedHeader (h : IndicationHeader)
| EncodedMessage (m : IndicationMessage).

(** The state the handlers and report tasks share: the Subscription
    Registry, the tickers its records point to, the UE registry, what has
    been sent over each E2 channel, and the encoder calls made so far. *)
Record World : Type := {
  subStore : gmap (Z * Z * Z) Subscriptions.Subscription;
  tickers : gmap nat Subscriptions.time_Ticker;
  ueStore : Ues.state;
  e2sent : gmap nat (list Indication.Ricindication);
  encoded : list Encoding
}.

Definition set_subStore (m : gmap (Z * Z * Z) Subscriptions.Subscription)
    (w : World) : World :=
  {| subStore := m; tickers := tickers w; ueStore := ueStore w;
     e2sent := e2sent w; encoded := encoded w |}.

Definition set_tickers (t : gmap nat Subscriptions.time_Ticker) (w : World)
  : World :=
  {| subStore := subStore w; tickers := t; ueStore := ueStore w;
     e2sent := e2sent w; encoded := encoded w |}.

Definition set_ueStore (u : Ues.state) (w : World) : World :=
  {| subStore := subStore w; tickers := tickers w; ueStore := u;
     e2sent := e2sent w; encoded := encoded w |}.

Definition set_e2sent (m : gmap nat (list Indication.Ricindication))
    (w : World) : World :=
  {| subStore := subStore w; tickers := tickers w; ueStore := ueStore w;
     e2sent := m; encoded := encoded w |}.

Definition log_encoding (e : Encoding) (w : World) : World :=
  {| subStore := subStore w; tickers := tickers w; ueStore := ueStore w;
     e2sent := e2sent w; encoded := encoded w ++ [e] |}.

(** The indications sent so far over channel [ch]. *)
Definition sentOn (w : World) (ch : nat) : list Indication.Ricindication :=
  default [] (e2sent w !! ch).

(** [t.Stop()]. *)
Definition stopTicker (t : nat) (w : World) : World :=
  set_tickers
    (alter (fun k => {| Subscriptions.period := Subscriptions.period k;
                        Subscriptions.running := false |}) t (tickers w))
    w.

(** The goroutine [RICSubscription] starts: a call of [reportIndication]
    with the report interval and the subscription. *)
Record Goroutine : Type := {
  interval : Z;
  subscription : Subscription
}.

(** A report task: blocked in the [select] of its loop (holding the
    subscription, the key of the store record [sub] it fetched, and the
    encoded header and message), returned, or stopped by a panic. *)
Inductive Task : Type :=
| Reporting (subscription : Subscription) (sub : Z * Z * Z)
            (indicationHeaderAsn1Bytes indicationMessageBytes : list byte)
| Returned (err : option error)
| Panicked.

(** What wakes the [select] up: a tick of [sub.Ticker.C], together with the
    answer of the transport to the send that follows, or the end of the
    channel's context. *)
Inductive Wakeup : Set :=
| TickerC (sendErr : option error)
| ContextDone.

(** The loop over the requested actions, with the accepted ids and the map of
    rejected ones it accumulates.  The slice of accepted actions holds
    pointers to the [actionID] of each iteration, a variable of its own; it
    is kept as the list of the ids pointed to. *)
Fixpoint admitActions (actionList : list RicAction)
    (ricActionsAccepted : list Z) (ricActionsNotAdmitted : gmap Z Cause)
  : list Z * gmap Z Cause :=
  match actionList with
  | [] => (ricActionsAccepted, ricActionsNotAdmitted)
  | action :: rest =>
      let actionID := RicActionId action in
      let actionType := RicActionType action in
      let accepted :=
        if decide (actionType = RICACTION_TYPE_REPORT)
        then ricActionsAccepted ++ [actionID] else ricActionsAccepted in
      let notAdmitted :=
        if decide (actionType = RICACTION_TYPE_INSERT \/
                   actionType = RICACTION_TYPE_POLICY)
        then <[actionID :=
                 Cause_RicRequest CAUSE_RICREQUEST_ACTION_NOT_SUPPORTED]>
               ricActionsNotAdmitted
        else ricActionsNotAdmitted in
      admitActions rest accepted notAdmitted
  end.

Section Client.

Variable E : E2AP.
Variable sm : ServiceModel.

(** [RICSubscription].  A handler answers with a response, a failure and
    an error.  The state is returned as it was received (the handler calls
    neither store), next to the goroutine the handler starts, if any. *)
Definition RICSubscription (request : RicsubscriptionRequest E) (w : World)
  : (option (RicsubscriptionResponse E) * option (RicsubscriptionFailure E) *
     option error) * World * option Goroutine :=
  let actionList := GetRicActionToBeSetupList E request in
  match GetRequesterID E request with
  | Fail err => ((None, None, Some err), w, None)
  | Ok reqID =>
  match GetRanFunctionID E request with
  | Fail err => ((None, None, Some err), w, None)
  | Ok ranFuncID =>
  match GetRicInstanceID E request with
  | Fail err => ((None, None, Some err), w, None)
  | Ok ricInstanceID =>
  let '(ricActionsAccepted, ricActionsNotAdmitted) :=
    admitActions actionList [] ∅ in
  if decide (length ricActionsAccepted = 0%nat) then
    let subscription :=
      NewSubscription
        [WithRequestID reqID; WithRanFuncID ranFuncID;
         WithRicInstanceID ricInstanceID;
         WithCause (Cause_RicRequest CAUSE_RICREQUEST_ACTION_NOT_SUPPORTED)] in
    match BuildSubscriptionFailure E subscription with
    | Fail err => ((None, None, Some err), w, None)
    | Ok subscriptionFailure => ((None, Some subscriptionFailure, None), w, None)
    end
  else
  match getReportPeriod E request with
  | Fail _ =>
    let subscription :=
      NewSubscription
        [WithRequestID reqID; WithRanFuncID ranFuncID;
         WithRicInstanceID ricInstanceID;
         WithCause (Cause_RicRequest CAUSE_RICREQUEST_UNSPECIFIED)] in
    match BuildSubscriptionFailure E subscription with
    | Fail _ => ((None, None, None), w, None)
    | Ok subscriptionFailure => ((None, Some subscriptionFailure, None), w, None)
    end
  | Ok reportInterval =>
    let subscription :=
      NewSubscription
        [WithRequestID reqID; WithRanFuncID ranFuncID;
         WithRicInstanceID ricInstanceID;
         WithActionsAccepted ricActionsAccepted;
         WithActionsNotAdmitted ricActionsNotAdmitted] in
    match BuildSubscriptionResponse E subscription with
    | Fail err => ((None, None, Some err), w, None)
    | Ok subscriptionResponse =>
        ((Some subscriptionResponse, None, None), w,
         Some {| interval := reportInterval; subscription := subscription |})
    end
  end
  end end end.

(** [RICSubscriptionDelete].  [None] is the panic of [sub.Ticker.Stop()] on
    a record whose [Ticker] is still nil. *)
Definition RICSubscriptionDelete (request : RicsubscriptionDeleteRequest E)
    (w : World)
  : option ((option (RicsubscriptionDeleteResponse E) * option unit *
             option error) * World) :=
  match DeleteGetRequesterID E request with
  | Fail err => Some ((None, None, Some err), w)
  | Ok reqID =>
  match DeleteGetRanFunctionID E request with
  | Fail err => Some ((None, None, Some err), w)
  | Ok ranFuncID =>
  match DeleteGetRicInstanceID E request with
  | Fail err => Some ((None, None, Some err), w)
  | Ok ricInstanceID =>
  let subID := Subscriptions.NewID ricInstanceID reqID ranFuncID in
  match Subscriptions.Get subID (subStore w) with
  | Fail err => Some ((None, None, Some err), w)
  | Ok sub =>
  let subscriptionDelete :=
    {| delReqID := reqID; delRanFuncID := ranFuncID;
       delRicInstanceID := ricInstanceID |} in
  match BuildSubscriptionDeleteResponse E subscriptionDelete with
  | Fail err => Some ((None, None, Some err), w)
  | Ok subDeleteResponse =>
  match Subscriptions.Ticker sub with
  | None => None
  | Some t => Some ((Some subDeleteResponse, None, None), stopTicker t w)
  end end end end end end.

(** [strconv.ParseUint(fmt.Sprintf("%d", GnbID), 10, 64)]. *)
Definition parseGnbID : result Z :=
  if decide (0 <= GnbID sm < 2 ^ 64) then Ok (GnbID sm)
  else Fail (errors_New Invalid "strconv.ParseUint: parsing failed").

(** [reportIndication] up to the entry of its loop.  [UEs.Len], of a
    store interface that src does not hold, is the number of UEs held, as
    [GetUECount] of [ues.go] counts them.  [time.NewTicker] panics on a
    duration that is not positive. *)
Definition reportIndication (interval : Z) (subscription : Subscription)
    (w : World) : World * Task :=
  let subID :=
    Subscriptions.NewID (ricInstanceID subscription) (reqID subscription)
                        (ranFuncID subscription) in
  match parseGnbID with
  | Fail err => (w, Returned (Some err))
  | Ok gNbID =>
  let plmnID := wrap 24 (wrap 32 (PlmnID sm)) in
  let header :=
    {| plmnID := plmnID; gNbID := gNbID; sst := "1"; sd := "SD1";
       plmnIDnrcgi := plmnID |} in
  let w := log_encoding (EncodedHeader header) w in
  match HeaderToAsn1Bytes E header with
  | Fail err => (w, Returned (Some err))
  | Ok indicationHeaderAsn1Bytes =>
  let indicationMessage :=
    {| numberOfActiveUes := int32 (Ues.GetUECount (ueStore w)) |} in
  let w := log_encoding (EncodedMessage indicationMessage) w in
  match MessageToAsn1Bytes E indicationMessage with
  | Fail err => (w, Returned (Some err))
  | Ok indicationMessageBytes =>
  match Subscriptions.Get subID (subStore w) with
  | Fail err => (w, Returned (Some err))
  | Ok sub =>
  let d := int64 (int64 interval * 1000000) in
  if decide (d <= 0) then (w, Panicked)
  else
    let t := fresh (dom (tickers w)) in
    (set_subStore (<[subID := Subscriptions.setTicker t sub]> (subStore w))
       (set_tickers
          (<[t := {| Subscriptions.period := d;
                     Subscriptions.running := true |}]> (tickers w)) w),
     Reporting subscription subID indicationHeaderAsn1Bytes
               indicationMessageBytes)
  end end end end.

(** Modelled from the spec: the package [pkg/utils/e2ap/indication] that the
    client imports, with its [Build], is absent from src.  The spec has the
    indication carry the subscription's identifiers, the header and the
    message, and lets the encoder refuse it.  These five fields are
    assembled here as [CreateIndication] of [pkg/utils/indication] assembles
    them; what that function writes besides (an action id, a sequence
    number, a call process id) is not known of the absent builder, and no
    property of the client speaks of it. *)
Definition Build (indication : Indication.Indication)
  : result Indication.Ricindication :=
  match Validate E (Indication.CreateIndication indication) with
  | Some err => Fail err
  | None => Ok (Indication.CreateIndication indication)
  end.

(** One round of the [select] of the loop.  [None]: the wake-up cannot
    happen (the task is not in its loop, or the ticker has been stopped and
    sends no tick). *)
Definition reportLoop (wakeup : Wakeup) (w : World) (task : Task)
  : option (World * Task) :=
  match task with
  | Reporting subscription subID indicationHeaderAsn1Bytes
              indicationMessageBytes =>
      sub ← subStore w !! subID;
      t ← Subscriptions.Ticker sub;
      k ← tickers w !! t;
      match wakeup with
      | TickerC sendErr =>
          if Subscriptions.running k then
            let indication :=
              Indication.NewIndication
                [Indication.WithRicInstanceID (ricInstanceID subscription);
                 Indication.WithRanFuncID (ranFuncID subscription);
                 Indication.WithRequestID (reqID subscription);
                 Indication.WithIndicationHeader indicationHeaderAsn1Bytes;
                 Indication.WithIndicationMessage indicationMessageBytes] in
            match Build indication with
            | Fail err => Some (w, Returned (Some err))
            | Ok ricIndication =>
                match sendErr with
                | Some err => Some (w, Returned (Some err))
                | None =>
                    let ch := Subscriptions.E2Channel sub in
                    Some (set_e2sent
                            (<[ch := sentOn w ch ++ [ricIndication]]> (e2sent w))
                            w,
                          task)
                end
            end
          else None
      | ContextDone => Some (stopTicker t w, Returned None)
      end
  | _ => None
  end.

(** What goes on around a report task: its own wake-ups, and the rest of the
    program changing the UE registry. *)
Inductive Action : Type :=
| Wake (wakeup : Wakeup)
| UEsChange (f : Ues.state -> Ues.state).

Fixpoint run (actions : list Action) (w : World) (task : Task)
  : World * Task :=
  match actions with
  | [] => (w, task)
  | Wake wakeup :: rest =>
      match reportLoop wakeup w task with
      | Some (w', task') => run rest w' task'
      | None => run rest w task
      end
  | UEsChange f :: rest => run rest (set_ueStore (f (ueStore w)) w) task
  end.

End Client.

(** A report task in its loop carries the header [h] and the message [m]. *)
Definition carries (h m : list byte) (task : Task) : Prop :=
  match task with
  | Reporting _ _ h' m' => h' = h /\ m' = m
  | _ => True
  end.

(** The ticker of the record stored under [id], if it has one, sends no
    tick. *)
Definition ticker_stopped (id : Z * Z * Z) (w : World) : Prop :=
  forall sub t k,
    subStore w !! id = Some sub -> Subscriptions.Ticker sub = Some t ->
    tickers w !! t = Some k -> Subscriptions.running k = false.

(** A task that is out of its loop, or whose ticker is stopped. *)
Definition quiet (id : Z * Z * Z) (w : World) (task : Task) : Prop :=
  match task with
  | Reporting _ id' _ _ => id' = id /\ ticker_stopped id w
  | _ => True
  end.

(** Stand-ins for the collaborators, used in the examples below: a request
    is its identifiers, its actions and its report period if it parses; the
    builders answer the value they are given; the encoders write the header's
    gNB id and the message's UE count in one byte. *)
Record sampleRequest : Set := {
  sRequester : Z;
  sFunction : Z;
  sInstance : Z;
  sActions : list RicAction;
  sPeriod : option Z
}.

Definition sampleByte (n : Z) : byte :=
  default x00 (Byte.of_N (Z.to_N (n mod 256))).

Definition sampleE2AP : E2AP :=
  {| RicsubscriptionRequest := sampleRequest;
     RicsubscriptionResponse := Subscription;
     RicsubscriptionFailure := Subscription;
     RicsubscriptionDeleteRequest := sampleRequest;
     RicsubscriptionDeleteResponse := SubscriptionDelete;
     GetRicActionToBeSetupList := sActions;
     GetRequesterID := fun r => Ok (sRequester r);
     GetRanFunctionID := fun r => Ok (sFunction r);
     GetRicInstanceID := fun r => Ok (sInstance r);
     getReportPeriod := fun r =>
       match sPeriod r with
       | Some p => Ok p
       | None => Fail (errors_New Invalid "no report period")
       end;
     BuildSubscriptionResponse := Ok;
     BuildSubscriptionFailure := Ok;
     DeleteGetRequesterID := fun r => Ok (sRequester r);
     DeleteGetRanFunctionID := fun r => Ok (sFunction r);
     DeleteGetRicInstanceID := fun r => Ok (sInstance r);
     BuildSubscriptionDeleteResponse := Ok;
     HeaderToAsn1Bytes := fun h => Ok [sampleByte (gNbID h)];
     MessageToAsn1Bytes := fun m => Ok [sampleByte (numberOfActiveUes m)];
     Validate := fun _ => None |}.

Definition sampleSM : ServiceModel := {| GnbID := 144; PlmnID := 314 |}.

(** A request for requester 11, function 2, instance 1, with a report action
    (id 5), an insert action (id 6), and a period of 1000 ms. *)
Definition reportRequest : sampleRequest :=
  {| sRequester := 11; sFunction := 2; sInstance := 1;
     sActions := [ {| RicActionId := 5; RicActionType := RICACTION_TYPE_REPORT |};
                   {| RicActionId := 6; RicActionType := RICACTION_TYPE_INSERT |} ];
     sPeriod := Some 1000 |}.

(** The same with an insert and a policy action only. *)
Definition insertRequest : sampleRequest :=
  {| sRequester := 11; sFunction := 2; sInstance := 1;
     sActions := [ {| RicActionId := 6; RicActionType := RICACTION_TYPE_INSERT |};
                   {| RicActionId := 7; RicActionType := RICACTION_TYPE_POLICY |} ];
     sPeriod := Some 1000 |}.

(** A program with one UE and nothing else. *)
Definition emptyWorld : World :=
  {| subStore := ∅; tickers := ∅; ueStore := Ues.sampleRegistry 1;
     e2sent := ∅; encoded := [] |}.

(** The same after the caller has stored a record for (1, 11, 2), owned by
    the session on channel 3; its timer is not attached yet. *)
Definition storedWorld : World :=
  set_subStore
    (Subscriptions.Add
       {| Subscriptions.ID := Subscriptions.NewID 1 11 2;
          Subscriptions.Accepted := [5];
          Subscriptions.Rejected := [(6, 1)];
          Subscriptions.E2Channel := 3;
          Subscriptions.Ticker := None |}
       ∅)
    emptyWorld.

(** The subscription the handler builds for [reportRequest], the program
    once its report task has reached the loop, and that task. *)
Definition sampleSubscription : Subscription :=
  {| reqID := 11; ranFuncID := 2; ricInstanceID := 1;
     ricActionsAccepted := [5];
     ricActionsNotAdmitted :=
       {[ 6 := Cause_RicRequest CAUSE_RICREQUEST_ACTION_NOT_SUPPORTED ]};
     cause := None |}.

Definition reportingWorld : World :=
  (reportIndication sampleE2AP sampleSM 1000 sampleSubscription storedWorld).1.

Definition reportingTask : Task :=
  Reporting sampleSubscription (Subscriptions.NewID 1 11 2) [x90]
            [x01].

(** One more UE joins the registry. *)
Definition oneMoreUE (u : Ues.state) : Ues.state :=
  Ues.CreateUEs Ues.sampleInt63n Ues.sampleFloat64 Ues.sampleCell 1 u.

(** [reportRequest] with an event trigger from which no report period can be
    read. *)
Definition periodlessRequest : sampleRequest :=
  {| sRequester := 11; sFunction := 2; sInstance := 1;
     sActions := [ {| RicActionId := 5; RicActionType := RICACTION_TYPE_REPORT |};
                   {| RicActionId := 6; RicActionType := RICACTION_TYPE_INSERT |} ];
     sPeriod := None |}.

(** What an action list asks to have rejected under id [k]: an action with
    that id of type insert or policy. *)
Definition asksRejected (k : Z) (a : RicAction) : Prop :=
  RicActionId a = k /\
  (RicActionType a = RICACTION_TYPE_INSERT \/
   RicActionType a = RICACTION_TYPE_POLICY).

(** The message [Build] hands to the encoder for [subscription], the
    header [h] and the message [m]. *)
Definition reportOf (subscription : Subscription) (h m : list byte)
  : Indication.Ricindication :=
  Indication.CreateIndication
    (Indication.NewIndication
       [Indication.WithRicInstanceID (ricInstanceID subscription);
        Indication.WithRanFuncID (ranFuncID subscription);
        Indication.WithRequestID (reqID subscription);
        Indication.WithIndicationHeader h;
        Indication.WithIndicationMessage m]).

(** The indication header a report task builds for the node and model of
    [sm], the indication message it builds from the UE store of [w], and the
    duration of its ticker for a report period in milliseconds. *)
Definition reportHeader (sm : ServiceModel) : IndicationHeader :=
  {| plmnID := wrap 24 (wrap 32 (PlmnID sm)); gNbID := GnbID sm;
     sst := "1"; sd := "SD1";
     plmnIDnrcgi := wrap 24 (wrap 32 (PlmnID sm)) |}.

Definition reportMessage (w : World) : IndicationMessage :=
  {| numberOfActiveUes := int32 (Ues.GetUECount (ueStore w)) |}.

Definition tickerPeriod (period : Z) : Z := int64 (int64 period * 1000000).

(** The key under which the report task of [subscription] looks its record
    up. *)
Definition keyOf (subscription : Subscription) : Z * Z * Z :=
  Subscriptions.NewID (ricInstanceID subscription) (reqID subscription)
                      (ranFuncID subscription).

(** The record of [storedWorld], and collaborators like [sampleE2AP] whose
    encoder refuses every indication. *)
Definition storedRecord : Subscriptions.Subscription :=
  {| Subscriptions.ID := Subscriptions.NewID 1 11 2;
     Subscriptions.Accepted := [5];
     Subscriptions.Rejected := [(6, 1)];
     Subscriptions.E2Channel := 3;
     Subscriptions.Ticker := None |}.

Definition refusingE2AP : E2AP :=
  {| RicsubscriptionRequest := sampleRequest;
     RicsubscriptionResponse := Subscription;
     RicsubscriptionFailure := Subscription;
     RicsubscriptionDeleteRequest := sampleRequest;
     RicsubscriptionDeleteResponse := SubscriptionDelete;
     GetRicActionToBeSetupList := sActions;
     GetRequesterID := fun r => Ok (sRequester r);
     GetRanFunctionID := fun r => Ok (sFunction r);
     GetRicInstanceID := fun r => Ok (sInstance r);
     getReportPeriod := getReportPeriod sampleE2AP;
     BuildSubscriptionResponse := Ok;
     BuildSubscriptionFailure := Ok;
     DeleteGetRequesterID := fun r => Ok (sRequester r);
     DeleteGetRanFunctionID := fun r => Ok (sFunction r);
     DeleteGetRicInstanceID := fun r => Ok (sInstance r);
     BuildSubscriptionDeleteResponse := Ok;
     HeaderToAsn1Bytes := HeaderToAsn1Bytes sampleE2AP;
     MessageToAsn1Bytes := MessageToAsn1Bytes sampleE2AP;
     Validate := fun _ => Some (errors_New Invalid "indication refused") |}.

(** Collaborators like [sampleE2AP] whose header encoder fails. *)
Definition failingEncoderE2AP : E2AP :=
  {| RicsubscriptionRequest := sampleRequest;
     RicsubscriptionResponse := Subscription;
     RicsubscriptionFailure := Subscription;
     RicsubscriptionDeleteRequest := sampleRequest;
     RicsubscriptionDeleteResponse := SubscriptionDelete;
     GetRicActionToBeSetupList := sActions;
     GetRequesterID := fun r => Ok (sRequester r);
     GetRanFunctionID := fun r => Ok (sFunction r);
     GetRicInstanceID := fun r => Ok (sInstance r);
     getReportPeriod := getReportPeriod sampleE2AP;
     BuildSubscriptionResponse := Ok;
     BuildSubscriptionFailure := Ok;
     DeleteGetRequesterID := fun r => Ok (sRequester r);
     DeleteGetRanFunctionID := fun r => Ok (sFunction r);
     DeleteGetRicInstanceID := fun r => Ok (sInstance r);
     BuildSubscriptionDeleteResponse := Ok;
     HeaderToAsn1Bytes := fun _ =>
       Fail (errors_New Invalid "indication header not encoded");
     MessageToAsn1Bytes := MessageToAsn1Bytes sampleE2AP;
     Validate := fun _ => None |}.

End Kpm.

(* ===================================================================== *)
(** ** The E2 agent *)
(* ===================================================================== *)

Module Agent.

(** Of the fields of [e2Agent], [node], [registry] and [controllers] are
    assigned once, by [NewE2Agent]; [channel] is the connection [Start]
    records, nil until then. *)
Record e2Agent : Set := {
  channel : option nat
}.

(** What the agent does to the E2 library: the number of connections
    [e2.Connect] has opened (a connection is named by its rank), the
    connections on which a setup request was sent, and the connections on
    which [Close] was called, each in order. *)
Record Network : Set := {
  connected : nat;
  setups : list nat;
  closed : list nat
}.

(** [NewE2Agent]: an error of [RegisterServiceModel] is logged and
    otherwise ignored. *)
Definition NewE2Agent : e2Agent := {| channel := None |}.

Section Agent.

(** The answers of the E2 library and of the setup builder: the error of
    [e2.Connect], the error of [setup.NewSetupRequest], whether [E2Setup]
    returns a failure and which error, and the error of [Close]. *)
Variable Connect : Network -> option error.
Variable NewSetupRequest : Network -> option error.
Variable E2Setup : Network -> nat -> bool * option error.
Variable Close : Network -> nat -> option error.

Definition Start (a : e2Agent) (net : Network)
  : option error * e2Agent * Network :=
  match Connect net with
  | Some err => (Some err, a, net)
  | None =>
  let ch := connected net in
  let net :=
    {| connected := S (connected net); setups := setups net;
       closed := closed net |} in
  match NewSetupRequest net with
  | Some err => (Some err, a, net)
  | None =>
  let answer := E2Setup net ch in
  let net :=
    {| connected := connected net; setups := setups net ++ [ch];
       closed := closed net |} in
  match answer with
  | (_, Some err) =>
      (Some (errors_New Unknown
              (String.append "E2 setup failed: " (errMsg err))), a, net)
  | (true, None) => (Some (errors_New Invalid "E2 setup failed"), a, net)
  | (false, None) => (None, {| channel := Some ch |}, net)
  end end end.

Definition Stop (a : e2Agent) (net : Network)
  : option error * e2Agent * Network :=
  match channel a with
  | Some c =>
      (Close net c, a,
       {| connected := connected net; setups := setups net;
          closed := closed net ++ [c] |})
  | None => (None, a, net)
  end.

(** [Stop] called [n] times in a row. *)
Fixpoint StopTimes (n : nat) (a : e2Agent) (net : Network)
  : e2Agent * Network :=
  match n with
  | O => (a, net)
  | S n => StopTimes n (Stop a net).1.2 (Stop a net).2
  end.

End Agent.

(** An E2 library that connects every time, refuses the setup on its first
    connection and accepts it on the later ones, and closes without
    error. *)
Definition sampleConnect (net : Network) : option error := None.

Definition sampleNewSetupRequest (net : Network) : option error := None.

Definition sampleE2Setup (net : Network) (c : nat) : bool * option error :=
  (bool_decide (c = 0%nat), None).

Definition sampleClose (net : Network) (c : nat) : option error := None.

Definition idle : Network := {| connected := 0; setups := []; closed := [] |}.

End Agent.

(* ===================================================================== *)
(** ** Properties of the cell identities *)
(* ===================================================================== *)

Module ModelFacts.

Import Model.

Example ToECGI_sample : ToECGI 314 0x1234567 = 0x13a1234567.
Proof. reflexivity. Qed.

Example ToECI_sample : ToECI 0xabcde 0x42 = 0xabcde42.
Proof. reflexivity. Qed.

(** *** Bit-level facts *)

Lemma wrap_small w x : 0 <= x < 2 ^ w -> wrap w x = x.
Proof. intros H. unfold wrap. now apply Z.mod_small. Qed.

(** Packing a field of [k] bits below a shifted field is an addition. *)
Lemma lor_shiftl_low hi lo k :
  0 <= k -> 0 <= lo < 2 ^ k ->
  Z.lor (Z.shiftl hi k) lo = hi * 2 ^ k + lo.
Proof.
  intros Hk Hlo.
  rewrite Z.shiftl_mul_pow2 by assumption.
  rewrite <- Z.lxor_lor, <- Z.add_nocarry_lxor; try reflexivity.
  all: apply Z.bits_inj'; intros n Hn;
    rewrite Z.land_spec, Z.bits_0;
    destruct (Z.lt_ge_cases n k) as [Hlt | Hge];
    [ rewrite Z.mul_pow2_bits_low by assumption; reflexivity
    | rewrite <- (Z.mod_small lo (2 ^ k)) by assumption;
      rewrite Z.mod_pow2_bits_high by lia; apply andb_false_r ].
Qed.

Lemma pack_high hi lo k :
  0 <= k -> 0 <= lo < 2 ^ k -> Z.shiftr (hi * 2 ^ k + lo) k = hi.
Proof.
  intros Hk Hlo. rewrite Z.shiftr_div_pow2 by assumption.
  assert (0 < 2 ^ k) by (apply Z.pow_pos_nonneg; lia).
  rewrite Z.div_add_l by lia. rewrite Z.div_small by assumption. lia.
Qed.

Lemma pack_low hi lo k :
  0 <= k -> 0 <= lo < 2 ^ k -> Z.land (hi * 2 ^ k + lo) (Z.ones k) = lo.
Proof.
  intros Hk Hlo. rewrite Z.land_ones by assumption.
  assert (0 < 2 ^ k) by (apply Z.pow_pos_nonneg; lia).
  rewrite Z.add_comm, Z.mod_add by lia. now apply Z.mod_small.
Qed.

Lemma ToECGI_value p e :
  0 <= p < 2 ^ 32 -> 0 <= e < 2 ^ 28 -> ToECGI p e = p * 2 ^ 28 + e.
Proof.
  intros Hp He. unfold ToECGI, mask28.
  change 0xfffffff with (Z.ones 28).
  rewrite Z.land_ones, (Z.mod_small e) by lia.
  rewrite (wrap_small 64 (Z.shiftl p 28)) by (rewrite Z.shiftl_mul_pow2; lia).
  rewrite lor_shiftl_low by lia.
  apply wrap_small. lia.
Qed.

Lemma ToECI_value b c :
  0 <= b < 2 ^ 20 -> 0 <= c < 2 ^ 8 -> ToECI b c = b * 2 ^ 8 + c.
Proof.
  intros Hb Hc. unfold ToECI.
  rewrite (wrap_small 64 (Z.shiftl b 8)) by (rewrite Z.shiftl_mul_pow2; lia).
  rewrite lor_shiftl_low by lia.
  apply wrap_small. lia.
Qed.

(** C10. The cell-identity conversions round-trip: for every PlmnID [p]
    and every ECI [e] below [2^28], [GetPlmnID (ToECGI p e) = p] and
    [GetECI (ToECGI p e) = e]; for every EnbID [b] below [2^20] and every
    CellID [c], [GetEnbID (ToECI b c) = b] and [GetCellID (ToECI b c) = c].
    The ranges of [p] and [c] are those of their Go types ([uint32],
    [uint8]). *)
Theorem cell_identity_roundtrip (p e b c : Z) :
  0 <= p < 2 ^ 32 -> 0 <= e < 2 ^ 28 ->
  0 <= b < 2 ^ 20 -> 0 <= c < 2 ^ 8 ->
  GetPlmnID (ToECGI p e) = p /\ GetECI (ToECGI p e) = e /\
  GetEnbID (ToECI b c) = b /\ GetCellID (ToECI b c) = c.
Proof.
  intros Hp He Hb Hc.
  rewrite ToECGI_value, ToECI_value by assumption.
  unfold GetPlmnID, GetECI, GetEnbID, GetCellID, mask28, mask20.
  repeat split.
  - rewrite pack_high by lia. now apply wrap_small.
  - change 0xfffffff with (Z.ones 28). rewrite pack_low by lia.
    apply wrap_small. lia.
  - rewrite Z.shiftr_land. change (Z.shiftr 0xfffff00 8) with (Z.ones 20).
    rewrite pack_high by lia.
    rewrite Z.land_ones, Z.mod_small by lia. apply wrap_small. lia.
  - change 0xff with (Z.ones 8). rewrite pack_low by lia.
    now apply wrap_small.
Qed.

Lemma cell_identity_roundtrip_witness :
  GetPlmnID (ToECGI 314 0x1234567) = 314 /\
  GetECI (ToECGI 314 0x1234567) = 0x1234567 /\
  GetEnbID (ToECI 0xabcde 0x42) = 0xabcde /\
  GetCellID (ToECI 0xabcde 0x42) = 0x42.
Proof. apply (cell_identity_roundtrip 314 0x1234567 0xabcde 0x42); lia. Defined.

(** *** The accessors as arithmetic, and what the constructors truncate *)

Ltac euclid :=
  change (2 ^ 8) with 256 in *; change (2 ^ 20) with 1048576 in *;
  change (2 ^ 24) with 16777216 in *; change (2 ^ 28) with 268435456 in *;
  change (2 ^ 32) with 4294967296 in *;
  change (2 ^ 60) with 1152921504606846976 in *;
  change (2 ^ 64) with 18446744073709551616 in *;
  Z.to_euclidean_division_equations; lia.

Lemma GetPlmnID_arith id :
  0 <= id < 2 ^ 60 -> GetPlmnID id = id / 2 ^ 28.
Proof.
  intros H. unfold GetPlmnID, wrap. rewrite Z.shiftr_div_pow2 by lia.
  apply Z.mod_small. euclid.
Qed.

Lemma GetECI_arith id : 0 <= id -> GetECI id = id mod 2 ^ 28.
Proof.
  intros H. unfold GetECI, wrap, mask28. change 0xfffffff with (Z.ones 28).
  rewrite Z.land_ones by lia. apply Z.mod_small. euclid.
Qed.

Lemma GetEnbID_arith id : 0 <= id -> GetEnbID id = (id / 2 ^ 8) mod 2 ^ 20.
Proof.
  intros H. unfold GetEnbID, wrap, mask20.
  rewrite Z.shiftr_land. change (Z.shiftr 0xfffff00 8) with (Z.ones 20).
  rewrite Z.land_ones, Z.shiftr_div_pow2 by lia. apply Z.mod_small. euclid.
Qed.

Lemma GetCellID_arith id : 0 <= id -> GetCellID id = id mod 2 ^ 8.
Proof.
  intros H. unfold GetCellID, wrap. change 0xff with (Z.ones 8).
  rewrite Z.land_ones by lia. apply Z.mod_small. euclid.
Qed.

Lemma ToECGI_trunc p e :
  0 <= p < 2 ^ 32 -> 0 <= e -> ToECGI p e = p * 2 ^ 28 + e mod 2 ^ 28.
Proof.
  intros Hp He. unfold ToECGI, mask28.
  change 0xfffffff with (Z.ones 28). rewrite Z.land_ones by lia.
  rewrite (wrap_small 64 (Z.shiftl p 28)) by (rewrite Z.shiftl_mul_pow2; lia).
  rewrite lor_shiftl_low by euclid.
  apply wrap_small. euclid.
Qed.

Lemma ToECI_trunc b c :
  0 <= b < 2 ^ 32 -> 0 <= c < 2 ^ 8 ->
  ToECI b c = (b mod 2 ^ 24) * 2 ^ 8 + c.
Proof.
  intros Hb Hc. unfold ToECI.
  rewrite (wrap_small 64 (Z.shiftl b 8)) by (rewrite Z.shiftl_mul_pow2; lia).
  rewrite lor_shiftl_low by lia. unfold wrap. euclid.
Qed.

Lemma ToGEnbID_trunc p b :
  0 <= p < 2 ^ 32 -> 0 <= b < 2 ^ 32 ->
  ToGEnbID p b = p * 2 ^ 28 + (b mod 2 ^ 20) * 2 ^ 8.
Proof.
  intros Hp Hb. unfold ToGEnbID, mask20.
  rewrite (wrap_small 64 (Z.shiftl p 28)) by (rewrite Z.shiftl_mul_pow2; lia).
  rewrite (wrap_small 64 (Z.shiftl b 8)) by (rewrite Z.shiftl_mul_pow2; lia).
  change 0xfffff00 with (Z.shiftl (Z.ones 20) 8).
  rewrite <- Z.shiftl_land, Z.land_ones by lia.
  rewrite (Z.shiftl_mul_pow2 (b mod 2 ^ 20)) by lia.
  rewrite lor_shiftl_low by euclid.
  apply wrap_small. euclid.
Qed.

(** The GEnbID round trip: for every PlmnID [p] and every EnbID [b] (both
    [uint32]), [ToGEnbID p b] gives back [p] as its PlmnID, the low 20 bits
    of [b] as its EnbID ([b] itself when it fits in 20 bits) and 0 as its
    cell id. *)
Theorem GEnbID_roundtrip (p b : Z) :
  0 <= p < 2 ^ 32 -> 0 <= b < 2 ^ 32 ->
  GetPlmnID (ToGEnbID p b) = p /\
  GetEnbID (ToGEnbID p b) = b mod 2 ^ 20 /\
  (b < 2 ^ 20 -> GetEnbID (ToGEnbID p b) = b) /\
  GetCellID (ToGEnbID p b) = 0.
Proof.
  intros Hp Hb. rewrite ToGEnbID_trunc by assumption.
  rewrite GetPlmnID_arith, GetEnbID_arith, GetCellID_arith by euclid.
  repeat split; try intros Hsmall; euclid.
Qed.

Lemma GEnbID_roundtrip_witness :
  GetPlmnID (ToGEnbID 314 0xabcde) = 314 /\
  GetEnbID (ToGEnbID 314 0xabcde) = 0xabcde mod 2 ^ 20 /\
  (0xabcde < 2 ^ 20 -> GetEnbID (ToGEnbID 314 0xabcde) = 0xabcde) /\
  GetCellID (ToGEnbID 314 0xabcde) = 0.
Proof. apply (GEnbID_roundtrip 314 0xabcde); lia. Defined.

(** An ECGI built from an ECI that was built from an EnbID and a cell id
    gives all three components back, and it is the node's GEnbID plus the
    cell id: [GetPlmnID], [GetEnbID] and [GetCellID] invert
    [ToECGI p (ToECI b c)], and [ToECGI p (ToECI b c) = ToGEnbID p b + c]. *)
Theorem ECGI_of_ECI_components (p b c : Z) :
  0 <= p < 2 ^ 32 -> 0 <= b < 2 ^ 20 -> 0 <= c < 2 ^ 8 ->
  GetPlmnID (ToECGI p (ToECI b c)) = p /\
  GetEnbID (ToECGI p (ToECI b c)) = b /\
  GetCellID (ToECGI p (ToECI b c)) = c /\
  GetECI (ToECGI p (ToECI b c)) = ToECI b c /\
  ToECGI p (ToECI b c) = ToGEnbID p b + c.
Proof.
  intros Hp Hb Hc.
  rewrite ToGEnbID_trunc, ToECI_trunc by lia.
  rewrite ToECGI_trunc by euclid.
  rewrite GetPlmnID_arith, GetEnbID_arith, GetCellID_arith, GetECI_arith
    by euclid.
  repeat split; euclid.
Qed.

Lemma ECGI_of_ECI_components_witness :
  GetPlmnID (ToECGI 314 (ToECI 0xabcde 0x42)) = 314 /\
  GetEnbID (ToECGI 314 (ToECI 0xabcde 0x42)) = 0xabcde /\
  GetCellID (ToECGI 314 (ToECI 0xabcde 0x42)) = 0x42 /\
  GetECI (ToECGI 314 (ToECI 0xabcde 0x42)) = ToECI 0xabcde 0x42 /\
  ToECGI 314 (ToECI 0xabcde 0x42) = ToGEnbID 314 0xabcde + 0x42.
Proof. apply (ECGI_of_ECI_components 314 0xabcde 0x42); lia. Defined.

(** Taking an identifier apart and putting it together again: every ECGI
    below [2^60] (a 32-bit PlmnID above a 28-bit ECI) is [ToECGI] of its own
    PlmnID and ECI, and the ECI of any identifier is [ToECI] of its own EnbID
    and cell id. *)
Theorem ECGI_recomposed (id : Z) :
  0 <= id < 2 ^ 60 ->
  ToECGI (GetPlmnID id) (GetECI id) = id /\
  ToECI (GetEnbID id) (GetCellID id) = GetECI id.
Proof.
  intros Hid.
  rewrite GetPlmnID_arith, GetEnbID_arith, GetCellID_arith, GetECI_arith
    by lia.
  rewrite ToECGI_trunc, ToECI_trunc by euclid.
  split; euclid.
Qed.

Lemma ECGI_recomposed_witness :
  ToECGI (GetPlmnID 0x13a1234567) (GetECI 0x13a1234567) = 0x13a1234567 /\
  ToECI (GetEnbID 0x13a1234567) (GetCellID 0x13a1234567)
    = GetECI 0x13a1234567.
Proof. apply (ECGI_recomposed 0x13a1234567); lia. Defined.

(** Components that do not fit are cut, never spilled into the neighbouring
    field: for every [uint32] PlmnID [p], ECI [e] and EnbID [b] and every
    cell id [c], [ToECGI p e] keeps [p] and the low 28 bits of [e], and
    [ToECI b c] keeps [c] and the low 20 bits of [b]. *)
Theorem oversized_components_are_cut (p e b c : Z) :
  0 <= p < 2 ^ 32 -> 0 <= e < 2 ^ 32 ->
  0 <= b < 2 ^ 32 -> 0 <= c < 2 ^ 8 ->
  GetPlmnID (ToECGI p e) = p /\
  GetECI (ToECGI p e) = e mod 2 ^ 28 /\
  GetCellID (ToECI b c) = c /\
  GetEnbID (ToECI b c) = b mod 2 ^ 20.
Proof.
  intros Hp He Hb Hc.
  rewrite ToECGI_trunc, ToECI_trunc by lia.
  rewrite GetPlmnID_arith, GetEnbID_arith, GetCellID_arith, GetECI_arith
    by euclid.
  repeat split; euclid.
Qed.

Lemma oversized_components_are_cut_witness :
  GetPlmnID (ToECGI 314 0xf1234567) = 314 /\
  GetECI (ToECGI 314 0xf1234567) = 0xf1234567 mod 2 ^ 28 /\
  GetCellID (ToECI 0xfabcde 0x42) = 0x42 /\
  GetEnbID (ToECI 0xfabcde 0x42) = 0xfabcde mod 2 ^ 20.
Proof.
  apply (oversized_components_are_cut 314 0xf1234567 0xfabcde 0x42); lia.
Defined.

End ModelFacts.

(* ===================================================================== *)
(** ** Properties of the UE registry *)
(* ===================================================================== *)

Module UesFacts.

Import Ues.

(** *** Channels and notification *)

Lemma chanOf_insert (cs : gmap nat sink) (ch ch' : nat) (k : sink) :
  chanOf (<[ch := k]> cs) ch' = if decide (ch = ch') then k else chanOf cs ch'.
Proof.
  unfold chanOf. destruct (decide (ch = ch')) as [-> | Hne].
  - by rewrite lookup_insert_eq.
  - by rewrite lookup_insert_ne.
Qed.

Lemma occurrences_cons (ch w : nat) (ws : list nat) :
  occurrences ch (w :: ws) =
  if decide (w = ch) then S (occurrences ch ws) else occurrences ch ws.
Proof.
  unfold occurrences. rewrite filter_cons.
  destruct (decide (w = ch)); reflexivity.
Qed.

(** Notifying open channels never panics; each channel receives one copy of
    the event per watcher entry that wraps it, after what it had received,
    and no channel is closed or reopened. *)
Lemma notifyEach_open (ws : list nat) (ev : UEEvent) (cs : gmap nat sink) :
  Forall (fun w => closed (chanOf cs w) = false) ws ->
  exists cs',
    notifyEach ws ev cs = Some cs' /\
    forall ch,
      received (chanOf cs' ch) =
        received (chanOf cs ch) ++ replicate (occurrences ch ws) ev /\
      closed (chanOf cs' ch) = closed (chanOf cs ch).
Proof.
  revert cs. induction ws as [| w ws IH]; intros cs Hopen.
  - exists cs. split; [reflexivity |]. intros ch. simpl.
    by rewrite app_nil_r.
  - inversion Hopen as [| ? ? Hw Hws]; subst. simpl.
    unfold send. rewrite Hw. simpl.
    set (cs1 := <[w := _]> cs).
    destruct (IH cs1) as (cs' & Hrun & Hlog).
    { eapply Forall_impl; [exact Hws |]. intros w' Hw'. simpl in Hw'.
      unfold cs1. rewrite chanOf_insert. by destruct (decide (w = w')). }
    exists cs'. split; [exact Hrun |]. intros ch.
    destruct (Hlog ch) as [Hr Hc]. rewrite Hr, Hc. unfold cs1.
    rewrite chanOf_insert, occurrences_cons.
    destruct (decide (w = ch)) as [-> | Hne]; simpl.
    + split; [by rewrite <- app_assoc | by rewrite Hw].
    + done.
Qed.

Lemma notify_open (p : nat) (t : Z) (s : state) :
  sinks_open s ->
  exists cs',
    notify p t s = Some (set_chans cs' s) /\
    forall ch,
      received (chanOf cs' ch) =
        received (chanOf (chans s) ch) ++
        replicate (occurrences ch (watchers s)) {| EvUE := p; EvType := t |} /\
      closed (chanOf cs' ch) = closed (chanOf (chans s) ch).
Proof.
  intros Hopen. unfold notify.
  destruct (notifyEach_open (watchers s) {| EvUE := p; EvType := t |} (chans s) Hopen)
    as (cs' & Hrun & Hlog).
  exists cs'. rewrite Hrun. simpl. by split.
Qed.

(** *** MoveUE *)

(** On a live UE [MoveUE] rewrites the cell of the object behind the
    registry's pointer and notifies the watchers; nothing else changes. *)
Lemma MoveUE_live (s : state) (i c : Z) (st : float) (p : nat) :
  sinks_open s -> ues s !! i = Some p ->
  exists cs',
    MoveUE i c st s =
      Some (None,
            set_chans cs' (set_heap (alter (setCell c st) p (heap s)) s)) /\
    forall ch,
      received (chanOf cs' ch) =
        received (chanOf (chans s) ch) ++
        replicate (occurrences ch (watchers s))
                  {| EvUE := p; EvType := UPDATED |} /\
      closed (chanOf cs' ch) = closed (chanOf (chans s) ch).
Proof.
  intros Hopen Hp. unfold MoveUE. rewrite Hp.
  destruct (notify_open p UPDATED
              (set_heap (alter (setCell c st) p (heap s)) s) Hopen)
    as (cs' & Hrun & Hlog).
  exists cs'. rewrite Hrun. by split.
Qed.

(** C8. For a live UE with IMSI [i] (and every watcher's channel open),
    [MoveUE i c st] returns a nil error, sets exactly the ECGI and the
    strength of that UE's cell to [c] and [st], leaving its IMSI, type,
    location, rotation, cell ID, CRNTI, neighbour cells and admission flag as
    they were, changes no other UE, keeps the registry's map and watcher list,
    and hands one UPDATED event for that UE to each watcher (a channel
    receives one per watcher entry that wraps it, after what it had received
    before).  For an absent IMSI it fails with NotFound and the state is
    unchanged. *)
Theorem MoveUE_frame (s : state) (i c : Z) (st : float) :
  sinks_open s ->
  (forall p ue, ues s !! i = Some p -> heap s !! p = Some ue ->
     exists s',
       MoveUE i c st s = Some (None, s') /\
       heap s' !! p =
         Some {| IMSI := IMSI ue; UEType := UEType ue;
                 Location := Location ue; Rotation := Rotation ue;
                 Cell := {| ID := ID (Cell ue); ECGI := c; Strength := st |};
                 CRNTI := CRNTI ue; Cells := Cells ue;
                 IsAdmitted := IsAdmitted ue |} /\
       (forall q, q <> p -> heap s' !! q = heap s !! q) /\
       ues s' = ues s /\ watchers s' = watchers s /\
       forall ch,
         received (chanOf (chans s') ch) =
           received (chanOf (chans s) ch) ++
           replicate (occurrences ch (watchers s))
                     {| EvUE := p; EvType := UPDATED |} /\
         closed (chanOf (chans s') ch) = closed (chanOf (chans s) ch)) /\
  (ues s !! i = None ->
     MoveUE i c st s = Some (Some (errors_New NotFound "UE not found"), s)).
Proof.
  intros Hopen. split.
  - intros p ue Hp Hue.
    destruct (MoveUE_live s i c st p Hopen Hp) as (cs' & Hrun & Hlog).
    eexists. split; [exact Hrun |]. simpl.
    repeat split; try apply Hlog.
    + rewrite lookup_alter_eq, Hue. reflexivity.
    + intros q Hq. by rewrite lookup_alter_ne.
  - intros Hnone. unfold MoveUE. by rewrite Hnone.
Qed.

Lemma MoveUE_frame_witness :
  exists s',
    MoveUE 1000005 42 1 watchedRegistry = Some (None, s') /\
    (ECGI ∘ Cell) <$> heap s' !! 0%nat = Some 42 /\
    (IMSI <$> heap s' !! 0%nat = Some 1000005) /\
    received (chanOf (chans s') 7%nat) = [{| EvUE := 0; EvType := UPDATED |}] /\
    MoveUE 1000006 42 1 watchedRegistry =
      Some (Some (errors_New NotFound "UE not found"), watchedRegistry).
Proof.
  destruct (MoveUE_frame watchedRegistry 1000005 42 1) as [Hlive _].
  { repeat constructor. }
  destruct (MoveUE_frame watchedRegistry 1000006 42 1) as [_ Habsent].
  { repeat constructor. }
  destruct (Hlive 0%nat
              {| IMSI := 1000005; UEType := "phone";
                 Location := {| Lat := 0; Lng := 0 |}; Rotation := 0;
                 Cell := {| ID := 0x13a1234567; ECGI := 0x13a1234567;
                            Strength := 50 |};
                 CRNTI := 90125; Cells := []; IsAdmitted := false |})
    as (s' & Hrun & Hue & _ & _ & _ & Hlog).
  { vm_compute. reflexivity. }
  { vm_compute. reflexivity. }
  exists s'. split; [exact Hrun |].
  rewrite Hue. destruct (Hlog 7%nat) as [-> _].
  split; [reflexivity |]. split; [reflexivity |]. split; [reflexivity |].
  apply Habsent. reflexivity.
Defined.

(** *** CreateUEs, SetUECount and the watchers *)

Section RegistryFacts.

Context (Int63n : nat -> Z -> Z) (Float64 : nat -> float)
        (GetRandomCell : nat -> Z)
        (rangeOrder : gmap Z nat -> list (Z * nat)).

(** [rand.Int63n(n)] answers within [0, n); [range] visits every entry of a
    map once. *)
Hypothesis Int63n_range : forall k n, 0 < n -> 0 <= Int63n k n < n.
Hypothesis rangeOrder_perm : forall m, rangeOrder m ≡ₚ map_to_list m.

Local Abbreviation createUE' := (createUE Int63n Float64 GetRandomCell).
Local Abbreviation createLoop' := (createLoop Int63n Float64 GetRandomCell).
Local Abbreviation CreateUEs' := (CreateUEs Int63n Float64 GetRandomCell).

Lemma drawIMSI_band (k : nat) :
  minIMSI <= drawIMSI Int63n k <= maxIMSI.
Proof.
  unfold drawIMSI, wrap, minIMSI, maxIMSI.
  pose proof (Int63n_range k (9999999 - 1000000) ltac:(lia)) as H.
  rewrite Z.mod_small; lia.
Qed.

(** The loop of [CreateUEs] never sends on a channel and never touches the
    watcher list: no event, ADDED or other, announces a new UE. *)
Lemma createLoop_silent (n : nat) (i : Z) (s : state) :
  chans (createLoop' n i s) = chans s /\
  watchers (createLoop' n i s) = watchers s.
Proof.
  revert i s. induction n as [| n IH]; intros i s; simpl; [done |].
  destruct (IH (i + 1) (createUE' i s)) as [-> ->].
  unfold createUE. by case_match.
Qed.

Lemma CreateUEs_silent (count : Z) (s : state) :
  chans (CreateUEs' count s) = chans s /\
  watchers (CreateUEs' count s) = watchers s.
Proof. apply createLoop_silent. Qed.

(** One iteration stores the new UE under its IMSI, at a fresh address. *)
Lemma createUE_invariant (i : Z) (s : state) :
  imsi_invariant s -> imsi_invariant (createUE' i s).
Proof.
  intros Hinv j p. unfold createUE.
  set (q := fresh (dom (heap s))).
  assert (Hq : heap s !! q = None)
    by (apply not_elem_of_dom, is_fresh).
  case_match eqn:Hdraw. simpl.
  assert (Hband : minIMSI <= z <= maxIMSI).
  { destruct (decide _); inversion Hdraw; subst; apply drawIMSI_band. }
  intros Hj. destruct (decide (z = j)) as [<- | Hne].
  - rewrite lookup_insert_eq in Hj. inversion Hj; subst p.
    rewrite lookup_insert_eq. eauto.
  - rewrite lookup_insert_ne in Hj by done.
    destruct (Hinv j p Hj) as (ue & Hue & Hi & Hb).
    exists ue. rewrite lookup_insert_ne by congruence. done.
Qed.

Lemma createLoop_invariant (n : nat) (i : Z) (s : state) :
  imsi_invariant s -> imsi_invariant (createLoop' n i s).
Proof.
  revert i s. induction n as [| n IH]; intros i s Hinv; simpl; [done |].
  by apply IH, createUE_invariant.
Qed.

(** Whatever the generators answer, the UEs of a registry built by
    [NewUERegistry] and grown by [CreateUEs] stay within the IMSI band, each
    under its own IMSI: no two live UEs share an IMSI. *)
Lemma CreateUEs_invariant (count : Z) (s : state) :
  imsi_invariant s -> imsi_invariant (CreateUEs' count s).
Proof. apply createLoop_invariant. Qed.

(** An iteration adds at most one UE; it adds none when both draws hit IMSIs
    in use. *)
Lemma createUE_size (i : Z) (s : state) :
  (size (ues (createUE' i s)) <= S (size (ues s)))%nat.
Proof.
  unfold createUE. case_match. simpl.
  destruct (ues s !! z) as [p |] eqn:Hz.
  - rewrite map_size_insert_Some by eauto. lia.
  - by rewrite map_size_insert_None.
Qed.

(** *** Shrinking *)

Lemma DestroyUE_live (i : Z) (p : nat) (s : state) :
  sinks_open s -> ues s !! i = Some p ->
  exists s',
    DestroyUE i s = Some (Ok p, s') /\
    ues s' = delete i (ues s) /\
    watchers s' = watchers s /\
    heap s' = heap s /\
    sinks_open s'.
Proof.
  intros Hopen Hi. unfold DestroyUE. rewrite Hi.
  destruct (notify_open p DELETED (set_ues (delete i (ues s)) s) Hopen)
    as (cs' & Hrun & Hlog).
  rewrite Hrun. simpl. eexists. split; [reflexivity |].
  repeat split. unfold sinks_open in *. simpl.
  eapply Forall_impl; [exact Hopen |]. intros w Hw. simpl in *.
  destruct (Hlog w) as [_ ->]. exact Hw.
Qed.

(** [removeSomeUEs] destroys the first [c] UEs that [range] reaches. *)
Lemma removeLoop_size (keys : list Z) (c : Z) (s : state) :
  sinks_open s -> NoDup keys ->
  (forall i, i ∈ keys -> is_Some (ues s !! i)) ->
  0 <= c < 2 ^ 63 ->
  exists s',
    removeLoop keys c s = Some s' /\
    size (ues s') = (size (ues s) - Nat.min (Z.to_nat c) (length keys))%nat /\
    sinks_open s'.
Proof.
  revert c s. induction keys as [| i keys IH]; intros c s Hopen Hnd Hin Hc.
  - exists s. simpl. rewrite Nat.min_0_r. split; [done |]. split; [lia | done].
  - simpl. destruct (decide (c = 0)) as [-> | Hne].
    { exists s. split; [done |]. split; [simpl; lia | done]. }
    destruct (Hin i) as [p Hp]; [by left |].
    destruct (DestroyUE_live i p s Hopen Hp)
      as (s1 & Hrun & Hues & _ & _ & Hopen1).
    rewrite Hrun. simpl.
    apply NoDup_cons in Hnd as [Hni Hnd].
    assert (Hc1 : int64 (c - 1) = c - 1).
    { unfold int64. rewrite Z.mod_small; lia. }
    rewrite Hc1.
    destruct (IH (c - 1) s1 Hopen1 Hnd) as (s' & Hloop & Hsize & Hopen');
      [| lia |].
    { intros j Hj. rewrite Hues, lookup_delete_ne; [apply Hin; by right |].
      intros ->. done. }
    exists s'. split; [exact Hloop |]. split; [| exact Hopen'].
    rewrite Hsize, Hues, map_size_delete_Some by eauto.
    assert (size (ues s) <> 0)%nat.
    { apply map_size_ne_0_lookup. eauto. }
    replace (Z.to_nat c) with (S (Z.to_nat (c - 1))) by lia.
    simpl. lia.
Qed.

(** Scaling down is exact: when the registry holds at least [n] UEs (and
    the watchers' channels are open), [SetUECount n] leaves exactly [n]. *)
Lemma SetUECount_shrinks (n : Z) (s : state) :
  sinks_open s ->
  0 <= n <= Z.of_nat (size (ues s)) -> Z.of_nat (size (ues s)) < 2 ^ 63 ->
  exists s',
    SetUECount Int63n Float64 GetRandomCell rangeOrder n s = Some s' /\
    GetUECount s' = n.
Proof.
  intros Hopen Hn Hsize. unfold SetUECount.
  assert (Hdelta : int64 (Z.of_nat (size (ues s)) - int64 n)
                   = Z.of_nat (size (ues s)) - n).
  { unfold int64. rewrite (Z.mod_small (n + _)) by lia.
    rewrite Z.mod_small; lia. }
  rewrite Hdelta.
  destruct (Z.ltb_spec (Z.of_nat (size (ues s)) - n) 0) as [? | _]; [lia |].
  destruct (Z.ltb_spec 0 (Z.of_nat (size (ues s)) - n)) as [Hpos | Hzero].
  - unfold removeSomeUEs.
    destruct (removeLoop_size (rangeOrder (ues s)).*1
                (Z.of_nat (size (ues s)) - n) s Hopen)
      as (s' & Hloop & Hsz & _).
    + rewrite rangeOrder_perm. apply NoDup_fst_map_to_list.
    + intros i Hi. apply list_elem_of_fmap in Hi as ([j p] & -> & Hjp).
      rewrite rangeOrder_perm in Hjp. apply elem_of_map_to_list in Hjp.
      simpl. eauto.
    + lia.
    + exists s'. split; [exact Hloop |].
      rewrite length_fmap, rangeOrder_perm, length_map_to_list in Hsz.
      unfold GetUECount, wrap. rewrite Z.mod_small; lia.
  - exists s. split; [done |]. unfold GetUECount, wrap.
    rewrite Z.mod_small; lia.
Qed.

(** *** Replay *)

Lemma replayEach_open (us : list nat) (ch : nat) (cs : gmap nat sink) :
  closed (chanOf cs ch) = false ->
  exists cs',
    replayEach us ch cs = Some cs' /\
    received (chanOf cs' ch) =
      received (chanOf cs ch) ++
      ((fun p => {| EvUE := p; EvType := NONE |}) <$> us) /\
    closed (chanOf cs' ch) = false.
Proof.
  revert cs. induction us as [| p us IH]; intros cs Hopen; simpl.
  - exists cs. by rewrite app_nil_r.
  - unfold send. rewrite Hopen. simpl.
    set (cs1 := <[ch := _]> cs).
    destruct (IH cs1) as (cs' & Hrun & Hlog & Hcl).
    { unfold cs1. rewrite chanOf_insert. by destruct (decide (ch = ch)). }
    exists cs'. split; [exact Hrun |]. split; [| exact Hcl].
    rewrite Hlog. unfold cs1. rewrite chanOf_insert.
    destruct (decide (ch = ch)); [| done]. simpl. by rewrite <- app_assoc.
Qed.

(** A watch with [Replay] and without [Monitor] on an open channel hands the
    channel one NONE event per UE the registry holds, each UE once, then
    closes it; the watcher list is not extended. *)
Lemma WatchUEs_replay_only (ch : nat) (s : state) :
  closed (chanOf (chans s) ch) = false ->
  exists s',
    WatchUEs rangeOrder ch [{| Replay := true; Monitor := false |}] s = Some s' /\
    received (chanOf (chans s') ch) =
      received (chanOf (chans s) ch) ++
      ((fun p => {| EvUE := p; EvType := NONE |}) <$> ListAllUEs rangeOrder s) /\
    ListAllUEs rangeOrder s ≡ₚ (map_to_list (ues s)).*2 /\
    closed (chanOf (chans s') ch) = true /\
    watchers s' = watchers s /\ ues s' = ues s.
Proof.
  intros Hopen. unfold WatchUEs. simpl.
  destruct (replayEach_open (rangeOrder (ues s)).*2 ch (chans s) Hopen)
    as (cs' & Hrun & Hlog & Hcl).
  rewrite Hrun. simpl. unfold close. rewrite Hcl. simpl.
  eexists. split; [reflexivity |]. simpl.
  rewrite !chanOf_insert. destruct (decide (ch = ch)); [| done]. simpl.
  repeat split; [exact Hlog |]. unfold ListAllUEs. by rewrite rangeOrder_perm.
Qed.

(** A watch with [Monitor] appends the channel to the watcher list. *)
Lemma WatchUEs_monitor (ch : nat) (s : state) :
  WatchUEs rangeOrder ch [{| Replay := false; Monitor := true |}] s =
  Some (set_watchers (watchers s ++ [ch]) s).
Proof. reflexivity. Qed.

(** *** What callers hold *)

Lemma elem_of_ListAllUEs (s : state) (i : Z) (p : nat) :
  GetUE i s = Ok p -> p ∈ ListAllUEs rangeOrder s.
Proof.
  unfold GetUE, ListAllUEs. destruct (ues s !! i) as [q |] eqn:Hq; [| done].
  intros [= ->]. apply list_elem_of_fmap. exists (i, p). split; [done |].
  rewrite rangeOrder_perm. by apply elem_of_map_to_list.
Qed.

(** C9 (as the code has it).  [GetUE], [ListAllUEs] and [ListUEs] hand out
    the registry's own pointers, not copies: when [GetUE i] has answered [p]
    (which [ListAllUEs] lists too, as does [ListUEs] for the UE's cell) and
    the watchers' channels are open, a later [MoveUE i c st] succeeds, the
    registry still maps the same IMSIs to the same pointers, and the UE
    behind the pointer [p] the caller holds now shows ECGI [c] and strength
    [st]. *)
Theorem returned_UEs_alias_registry (s : state) (i c : Z) (st : float)
    (p : nat) (ue : UE) :
  sinks_open s ->
  GetUE i s = Ok p ->
  heap s !! p = Some ue ->
  p ∈ ListAllUEs rangeOrder s /\
  p ∈ ListUEs rangeOrder (ECGI (Cell ue)) s /\
  exists s',
    MoveUE i c st s = Some (None, s') /\
    ues s' = ues s /\
    GetUE i s' = Ok p /\
    heap s' !! p = Some (setCell c st ue) /\
    ECGI (Cell (setCell c st ue)) = c /\
    Strength (Cell (setCell c st ue)) = st.
Proof.
  intros Hopen Hget Hue.
  pose proof (elem_of_ListAllUEs s i p Hget) as Hin.
  split; [exact Hin |]. split.
  { unfold ListUEs. apply list_elem_of_filter. split; [| exact Hin].
    by rewrite Hue. }
  assert (Hp : ues s !! i = Some p).
  { unfold GetUE in Hget. destruct (ues s !! i); by inversion Hget. }
  destruct (MoveUE_live s i c st p Hopen Hp) as (cs' & Hrun & _).
  eexists. split; [exact Hrun |]. unfold GetUE. simpl.
  rewrite Hp, lookup_alter_eq, Hue. done.
Qed.

End RegistryFacts.

Lemma returned_UEs_alias_registry_witness :
  0%nat ∈ ListAllUEs sampleOrder watchedRegistry /\
  0%nat ∈ ListUEs sampleOrder 0x13a1234567 watchedRegistry /\
  exists s',
    MoveUE 1000005 42 1 watchedRegistry = Some (None, s') /\
    ues s' = ues watchedRegistry /\
    GetUE 1000005 s' = Ok 0%nat /\
    (ECGI ∘ Cell) <$> heap s' !! 0%nat = Some 42.
Proof.
  destruct (returned_UEs_alias_registry sampleOrder (fun m => reflexivity _)
              watchedRegistry 1000005 42 1 0%nat
              {| IMSI := 1000005; UEType := "phone";
                 Location := {| Lat := 0; Lng := 0 |}; Rotation := 0;
                 Cell := {| ID := 0x13a1234567; ECGI := 0x13a1234567;
                            Strength := 50 |};
                 CRNTI := 90125; Cells := []; IsAdmitted := false |})
    as (Hin & Hcell & s' & Hrun & Hlist & Hget & Hue & _).
  { repeat constructor. }
  { reflexivity. }
  { vm_compute. reflexivity. }
  split; [exact Hin |]. split; [exact Hcell |].
  exists s'. rewrite Hue. done.
Defined.

(** C9 (as stated, refuted).  The registry holds one UE.  [ListAllUEs] and
    [GetUE] both answer the pointer 0, behind which the caller reads the ECGI
    0x13a1234567; after [MoveUE 1000005 42 1] the same pointer reads ECGI 42:
    the data returned earlier were not detached from the registry. *)
Lemma listed_UE_changes_on_move :
  ListAllUEs sampleOrder (sampleRegistry 1) = [0%nat] /\
  GetUE 1000005 (sampleRegistry 1) = Ok 0%nat /\
  (ECGI ∘ Cell) <$> heap (sampleRegistry 1) !! 0%nat = Some 0x13a1234567 /\
  exists s',
    MoveUE 1000005 42 1 (sampleRegistry 1) = Some (None, s') /\
    (ECGI ∘ Cell) <$> heap s' !! 0%nat = Some 42.
Proof.
  repeat split. eexists. split; vm_compute; reflexivity.
Qed.

(** C3 (the code falls short).  From the empty registry, with the
    generator answering 5, 7, then 5 and 7 again, [SetUECount 3] draws the
    IMSI 1000005 for the third UE, finds it taken, redraws once, gets
    1000007, taken as well, and stores the new UE over the second one: the
    population is 2, not 3.  A second [SetUECount 3] again draws two IMSIs in
    use and replaces a UE: the population still is 2 and the registry is not
    what it was. *)
Theorem SetUECount_misses_count :
  exists s1 s2,
    SetUECount sampleInt63n sampleFloat64 sampleCell sampleOrder 3
      (sampleRegistry 0) = Some s1 /\
    GetUECount s1 = 2 /\
    SetUECount sampleInt63n sampleFloat64 sampleCell sampleOrder 3 s1 = Some s2 /\
    GetUECount s2 = 2 /\
    ues s1 !! 1000007 = Some 2%nat /\
    ues s2 !! 1000007 = Some 3%nat.
Proof.
  do 2 eexists. repeat split; vm_compute; reflexivity.
Qed.

(** C4 (the code falls short).  The same run, seen at [CreateUEs]: after
    two UEs the IMSI 1000007 belongs to the UE at address 1 (CRNTI 90126);
    creating the third draws 1000005 (in use), redraws once and gets 1000007
    (in use), and stores the third UE (address 2, CRNTI 90127) under
    1000007.  The second UE is gone from the registry, which holds two UEs
    and reported no error. *)
Theorem CreateUEs_overwrites_live_UE :
  ues (sampleRegistry 2) !! 1000007 = Some 1%nat /\
  CRNTI <$> heap (sampleRegistry 2) !! 1%nat = Some 90126 /\
  ues (sampleRegistry 3) !! 1000007 = Some 2%nat /\
  CRNTI <$> heap (sampleRegistry 3) !! 2%nat = Some 90127 /\
  map_to_list (ues (sampleRegistry 3)) = [(1000007, 2%nat); (1000005, 0%nat)].
Proof.
  repeat split; vm_compute; reflexivity.
Qed.

(** C7 (the code falls short).  A watcher registered with [Monitor] on
    channel 7 receives nothing when [CreateUEs] adds a UE, although it does
    receive the UPDATED and DELETED events of the [MoveUE] and [DestroyUE]
    that follow, in that order. *)
Theorem CreateUEs_emits_no_ADDED :
  exists s1 s3 s4,
    WatchUEs sampleOrder 7 [{| Replay := false; Monitor := true |}]
      (sampleRegistry 0) = Some s1 /\
    watchers s1 = [7%nat] /\
    GetUECount (CreateUEs sampleInt63n sampleFloat64 sampleCell 1 s1) = 1 /\
    received (chanOf
      (chans (CreateUEs sampleInt63n sampleFloat64 sampleCell 1 s1)) 7) = [] /\
    MoveUE 1000005 42 1 (CreateUEs sampleInt63n sampleFloat64 sampleCell 1 s1)
      = Some (None, s3) /\
    DestroyUE 1000005 s3 = Some (Ok 0%nat, s4) /\
    received (chanOf (chans s4) 7) =
      [{| EvUE := 0; EvType := UPDATED |}; {| EvUE := 0; EvType := DELETED |}].
Proof.
  do 3 eexists. repeat split; vm_compute; reflexivity.
Qed.

(** *** DestroyUE *)

Lemma DestroyUE_live_log (i : Z) (p : nat) (s : state) :
  sinks_open s -> ues s !! i = Some p ->
  exists cs',
    DestroyUE i s =
      Some (Ok p, set_chans cs' (set_ues (delete i (ues s)) s)) /\
    forall ch,
      received (chanOf cs' ch) =
        received (chanOf (chans s) ch) ++
        replicate (occurrences ch (watchers s))
                  {| EvUE := p; EvType := DELETED |} /\
      closed (chanOf cs' ch) = closed (chanOf (chans s) ch).
Proof.
  intros Hopen Hi. unfold DestroyUE. rewrite Hi.
  destruct (notify_open p DELETED (set_ues (delete i (ues s)) s) Hopen)
    as (cs' & Hrun & Hlog).
  exists cs'. rewrite Hrun. by split.
Qed.

(** [DestroyUE] of a live IMSI (the watchers' channels being open) answers
    the UE's pointer and removes the IMSI: a [GetUE] of it now fails with
    NotFound, every other IMSI is found as before, the registry holds one UE
    less, the UE objects themselves are untouched, and each watcher is handed
    one DELETED event for the UE.  [DestroyUE] of an absent IMSI fails with
    NotFound and changes nothing. *)
Theorem DestroyUE_removes (s : state) (i : Z) :
  sinks_open s ->
  (forall p, ues s !! i = Some p ->
     exists s',
       DestroyUE i s = Some (Ok p, s') /\
       GetUE i s' = Fail (errors_New NotFound "UE not found") /\
       (forall j, j <> i -> GetUE j s' = GetUE j s) /\
       size (ues s') = pred (size (ues s)) /\
       heap s' = heap s /\ watchers s' = watchers s /\
       forall ch,
         received (chanOf (chans s') ch) =
           received (chanOf (chans s) ch) ++
           replicate (occurrences ch (watchers s))
                     {| EvUE := p; EvType := DELETED |} /\
         closed (chanOf (chans s') ch) = closed (chanOf (chans s) ch)) /\
  (ues s !! i = None ->
     DestroyUE i s = Some (Fail (errors_New NotFound "UE not found"), s)).
Proof.
  intros Hopen. split.
  - intros p Hp.
    destruct (DestroyUE_live_log i p s Hopen Hp) as (cs' & Hrun & Hlog).
    eexists. split; [exact Hrun |]. unfold GetUE. simpl.
    rewrite lookup_delete_eq. split; [done |]. split.
    { intros j Hj. by rewrite lookup_delete_ne. }
    split; [apply map_size_delete_Some; eauto |]. done.
  - intros Hnone. unfold DestroyUE. by rewrite Hnone.
Qed.

Lemma DestroyUE_removes_witness :
  exists s',
    DestroyUE 1000005 watchedRegistry = Some (Ok 0%nat, s') /\
    GetUE 1000005 s' = Fail (errors_New NotFound "UE not found") /\
    received (chanOf (chans s') 7%nat) = [{| EvUE := 0; EvType := DELETED |}] /\
    DestroyUE 1000006 watchedRegistry =
      Some (Fail (errors_New NotFound "UE not found"), watchedRegistry).
Proof.
  destruct (DestroyUE_removes watchedRegistry 1000005) as [Hlive _].
  { repeat constructor. }
  destruct (DestroyUE_removes watchedRegistry 1000006) as [_ Habsent].
  { repeat constructor. }
  destruct (Hlive 0%nat) as (s' & Hrun & Hget & _ & _ & _ & _ & Hlog).
  { reflexivity. }
  exists s'. split; [exact Hrun |]. split; [exact Hget |].
  destruct (Hlog 7%nat) as [-> _]. split; [reflexivity |].
  apply Habsent. reflexivity.
Defined.

(** *** Scaling down and up *)

Section RegistryExtras.

Context (Int63n : nat -> Z -> Z) (Float64 : nat -> float)
        (GetRandomCell : nat -> Z)
        (rangeOrder : gmap Z nat -> list (Z * nat)).

Hypothesis Int63n_range : forall k n, 0 < n -> 0 <= Int63n k n < n.
Hypothesis rangeOrder_perm : forall m, rangeOrder m ≡ₚ map_to_list m.

Local Abbreviation createUE' := (createUE Int63n Float64 GetRandomCell).
Local Abbreviation createLoop' := (createLoop Int63n Float64 GetRandomCell).
Local Abbreviation CreateUEs' := (CreateUEs Int63n Float64 GetRandomCell).
Local Abbreviation SetUECount' :=
  (SetUECount Int63n Float64 GetRandomCell rangeOrder).

(** What the loop of [removeSomeUEs] does to the registry and tells the
    watchers. *)
Lemma removeLoop_effects (keys : list Z) (c : Z) (s : state) :
  sinks_open s -> NoDup keys ->
  (forall i, i ∈ keys -> is_Some (ues s !! i)) ->
  0 <= c < 2 ^ 63 ->
  exists s',
    removeLoop keys c s = Some s' /\
    size (ues s') = (size (ues s) - Nat.min (Z.to_nat c) (length keys))%nat /\
    ues s' ⊆ ues s /\
    heap s' = heap s /\ watchers s' = watchers s /\ sinks_open s' /\
    forall ch, exists news,
      received (chanOf (chans s') ch) = received (chanOf (chans s) ch) ++ news /\
      length news =
        (occurrences ch (watchers s) * Nat.min (Z.to_nat c) (length keys))%nat /\
      Forall (fun ev => EvType ev = DELETED) news.
Proof.
  revert c s. induction keys as [| i keys IH]; intros c s Hopen Hnd Hin Hc.
  - exists s. simpl. rewrite Nat.min_0_r.
    repeat split; try done; try lia.
    intros ch. exists []. rewrite app_nil_r. repeat split; [simpl; lia | done].
  - simpl. destruct (decide (c = 0)) as [-> | Hne].
    { exists s. repeat split; try done; try (simpl; lia).
      intros ch. exists []. rewrite app_nil_r. simpl.
      repeat split; [lia | done]. }
    destruct (Hin i) as [p Hp]; [by left |].
    destruct (DestroyUE_live_log i p s Hopen Hp) as (cs1 & Hrun & Hlog1).
    rewrite Hrun. simpl.
    set (s1 := set_chans cs1 (set_ues (delete i (ues s)) s)).
    assert (Hopen1 : sinks_open s1).
    { unfold sinks_open in *. simpl.
      eapply Forall_impl; [exact Hopen |]. intros w Hw. simpl in *.
      destruct (Hlog1 w) as [_ ->]. exact Hw. }
    apply NoDup_cons in Hnd as [Hni Hnd].
    assert (Hc1 : int64 (c - 1) = c - 1).
    { unfold int64. rewrite Z.mod_small; lia. }
    rewrite Hc1.
    destruct (IH (c - 1) s1 Hopen1 Hnd)
      as (s' & Hloop & Hsize & Hsub & Hheap & Hw & Hopen' & Hlog');
      [| lia |].
    { intros j Hj. simpl. rewrite lookup_delete_ne; [apply Hin; by right |].
      intros ->. done. }
    exists s'. split; [exact Hloop |].
    assert (Hmin : Nat.min (Z.to_nat c) (S (length keys))
                   = S (Nat.min (Z.to_nat (c - 1)) (length keys))).
    { replace (Z.to_nat c) with (S (Z.to_nat (c - 1))) by lia. reflexivity. }
    change (length (i :: keys)) with (S (length keys)). rewrite Hmin.
    split.
    { rewrite Hsize. simpl. rewrite map_size_delete_Some by eauto.
      assert (size (ues s) <> 0)%nat by (apply map_size_ne_0_lookup; eauto).
      lia. }
    split.
    { etrans; [exact Hsub |]. simpl. apply delete_subseteq. }
    split; [by rewrite Hheap |]. split; [by rewrite Hw |].
    split; [exact Hopen' |]. intros ch.
    destruct (Hlog' ch) as (news & Hr & Hlen & Hall).
    destruct (Hlog1 ch) as [Hr1 _].
    exists (replicate (occurrences ch (watchers s))
                      {| EvUE := p; EvType := DELETED |} ++ news).
    split.
    { rewrite Hr. simpl. rewrite Hr1. by rewrite <- app_assoc. }
    split.
    { rewrite length_app, length_replicate, Hlen. simpl. lia. }
    apply Forall_app. split; [| exact Hall].
    apply Forall_replicate. reflexivity.
Qed.

(** Scaling down is exact and tells the watchers: when the registry holds
    at least [n] UEs (fewer than [2^63], the watchers' channels open),
    [SetUECount n] leaves exactly [n] of them, all of them UEs that were
    there before and under the same pointers, touches no UE object, and
    hands each watcher one DELETED event per UE removed. *)
Theorem SetUECount_scales_down (n : Z) (s : state) :
  sinks_open s ->
  0 <= n <= Z.of_nat (size (ues s)) -> Z.of_nat (size (ues s)) < 2 ^ 63 ->
  exists s',
    SetUECount' n s = Some s' /\
    GetUECount s' = n /\
    ues s' ⊆ ues s /\
    heap s' = heap s /\ watchers s' = watchers s /\
    forall ch, exists news,
      received (chanOf (chans s') ch) = received (chanOf (chans s) ch) ++ news /\
      Z.of_nat (length news) =
        Z.of_nat (occurrences ch (watchers s)) * (Z.of_nat (size (ues s)) - n) /\
      Forall (fun ev => EvType ev = DELETED) news.
Proof.
  intros Hopen Hn Hsize. unfold SetUECount.
  assert (Hdelta : int64 (Z.of_nat (size (ues s)) - int64 n)
                   = Z.of_nat (size (ues s)) - n).
  { unfold int64. rewrite (Z.mod_small (n + _)) by lia.
    rewrite Z.mod_small; lia. }
  rewrite Hdelta.
  destruct (Z.ltb_spec (Z.of_nat (size (ues s)) - n) 0) as [? | _]; [lia |].
  destruct (Z.ltb_spec 0 (Z.of_nat (size (ues s)) - n)) as [Hpos | Hzero].
  - unfold removeSomeUEs.
    destruct (removeLoop_effects (rangeOrder (ues s)).*1
                (Z.of_nat (size (ues s)) - n) s Hopen)
      as (s' & Hloop & Hsz & Hsub & Hheap & Hw & _ & Hlog).
    + rewrite rangeOrder_perm. apply NoDup_fst_map_to_list.
    + intros i Hi. apply list_elem_of_fmap in Hi as ([j p] & -> & Hjp).
      rewrite rangeOrder_perm in Hjp. apply elem_of_map_to_list in Hjp.
      simpl. eauto.
    + lia.
    + assert (Hlen : length (rangeOrder (ues s)).*1 = size (ues s))
        by (by rewrite length_fmap, rangeOrder_perm, length_map_to_list).
      rewrite Hlen in Hsz.
      exists s'. split; [exact Hloop |]. split.
      { unfold GetUECount, wrap. rewrite Z.mod_small; lia. }
      repeat split; try done. intros ch.
      destruct (Hlog ch) as (news & Hr & Hl & Hall).
      exists news. repeat split; try done. rewrite Hl, Hlen. nia.
  - exists s. split; [done |]. split.
    { unfold GetUECount, wrap. rewrite Z.mod_small; lia. }
    repeat split; try done. intros ch. exists []. rewrite app_nil_r.
    repeat split; [simpl; nia | done].
Qed.

(** *** Growing *)

(** One iteration of [CreateUEs] allocates a fresh object: the objects that
    existed stay as they are, every IMSI that was stored stays stored, and
    the registry does not shrink. *)
Lemma createUE_grows (i : Z) (s : state) :
  (forall p ue, heap s !! p = Some ue -> heap (createUE' i s) !! p = Some ue) /\
  (forall j, is_Some (ues s !! j) -> is_Some (ues (createUE' i s) !! j)) /\
  (size (ues s) <= size (ues (createUE' i s)) <= S (size (ues s)))%nat.
Proof.
  unfold createUE.
  set (q := fresh (dom (heap s))).
  assert (Hq : heap s !! q = None) by (apply not_elem_of_dom, is_fresh).
  case_match. simpl. split; [| split].
  - intros p ue Hp. rewrite lookup_insert_ne; [done | congruence].
  - intros j Hj. destruct (decide (z = j)) as [-> | Hne].
    + rewrite lookup_insert_eq. eauto.
    + by rewrite lookup_insert_ne.
  - destruct (ues s !! z) as [p |] eqn:Hz.
    + rewrite map_size_insert_Some by eauto. lia.
    + rewrite map_size_insert_None by done. lia.
Qed.

Lemma createLoop_grows (n : nat) (i : Z) (s : state) :
  (forall p ue, heap s !! p = Some ue ->
                heap (createLoop' n i s) !! p = Some ue) /\
  (forall j, is_Some (ues s !! j) -> is_Some (ues (createLoop' n i s) !! j)) /\
  (size (ues s) <= size (ues (createLoop' n i s)) <= n + size (ues s))%nat.
Proof.
  revert i s. induction n as [| n IH]; intros i s; simpl.
  - repeat split; try done; lia.
  - destruct (createUE_grows i s) as (Hh & Hd & Hs).
    destruct (IH (i + 1) (createUE' i s)) as (Hh' & Hd' & Hs').
    repeat split; try lia.
    + intros p ue Hp. by apply Hh', Hh.
    + intros j Hj. by apply Hd', Hd.
Qed.


(** Scaling up never overshoots and is silent: for a count [n] (below
    [2^63]) that the registry does not exceed, [SetUECount n] leaves at least
    the UEs counted before and at most [n], sends nothing to any watcher, and
    when the registry already holds [n] UEs it is left exactly as it was. *)
Theorem SetUECount_scales_up (n : Z) (s : state) :
  Z.of_nat (size (ues s)) <= n < 2 ^ 63 ->
  exists s',
    SetUECount' n s = Some s' /\
    GetUECount s <= GetUECount s' <= n /\
    chans s' = chans s /\ watchers s' = watchers s /\
    (Z.of_nat (size (ues s)) = n -> s' = s).
Proof.
  intros Hn. unfold SetUECount.
  assert (Hdelta : int64 (Z.of_nat (size (ues s)) - int64 n)
                   = Z.of_nat (size (ues s)) - n).
  { unfold int64. rewrite (Z.mod_small (n + _)) by lia.
    rewrite Z.mod_small; lia. }
  rewrite Hdelta.
  destruct (Z.ltb_spec (Z.of_nat (size (ues s)) - n) 0) as [Hneg | Hge].
  - eexists. split; [reflexivity |].
    assert (Hw : wrap 64 (- (Z.of_nat (size (ues s)) - n))
                 = n - Z.of_nat (size (ues s))).
    { unfold wrap. rewrite Z.mod_small; lia. }
    rewrite Hw. unfold CreateUEs.
    destruct (createLoop_grows (Z.to_nat (n - Z.of_nat (size (ues s)))) 0 s)
      as (_ & _ & Hs).
    destruct (createLoop_silent Int63n Float64 GetRandomCell
                (Z.to_nat (n - Z.of_nat (size (ues s)))) 0 s) as [Hc Hwt].
    split.
    { unfold GetUECount, wrap. rewrite !Z.mod_small; lia. }
    repeat split; try done. lia.
  - destruct (Z.ltb_spec 0 (Z.of_nat (size (ues s)) - n)); [lia |].
    exists s. split; [done |]. split; [| done].
    unfold GetUECount, wrap. rewrite !Z.mod_small; lia.
Qed.

(** *** Invariants of the registry *)

Lemma notify_only_chans (p : nat) (t : Z) (s s' : state) :
  notify p t s = Some s' -> exists cs, s' = set_chans cs s.
Proof.
  unfold notify. destruct (notifyEach _ _ _) as [cs |]; [| done].
  simpl. intros [= <-]. by exists cs.
Qed.

Lemma DestroyUE_shape (i : Z) (s s' : state) (r : result nat) :
  DestroyUE i s = Some (r, s') ->
  ues s' ⊆ ues s /\ heap s' = heap s.
Proof.
  unfold DestroyUE. destruct (ues s !! i) as [p |].
  - destruct (notify _ _ _) as [s1 |] eqn:Hn; [| done]. simpl.
    intros [= <- <-]. apply notify_only_chans in Hn as [cs ->]. simpl.
    split; [apply delete_subseteq | done].
  - intros [= <- <-]. done.
Qed.

Lemma removeLoop_shape (keys : list Z) (c : Z) (s s' : state) :
  removeLoop keys c s = Some s' ->
  ues s' ⊆ ues s /\ heap s' = heap s.
Proof.
  revert c s. induction keys as [| i keys IH]; intros c s; simpl.
  - by intros [= <-].
  - destruct (decide (c = 0)); [by intros [= <-] |].
    destruct (DestroyUE i s) as [[r s1] |] eqn:Hd; [| done]. simpl.
    intros Hloop. apply DestroyUE_shape in Hd as [Hsub Hheap].
    apply IH in Hloop as [Hsub' Hheap'].
    split; [by etrans | congruence].
Qed.

Lemma invariants_subseteq (s s' : state) :
  ues s' ⊆ ues s -> heap s' = heap s ->
  imsi_invariant s /\ pointers_distinct s ->
  imsi_invariant s' /\ pointers_distinct s'.
Proof.
  intros Hsub Hheap [Hinv Hdist]. split.
  - intros i p Hi. rewrite Hheap. apply Hinv.
    by eapply lookup_weaken.
  - intros i j p Hi Hj. apply (Hdist i j p); by eapply lookup_weaken.
Qed.

Lemma createUE_distinct (i : Z) (s : state) :
  imsi_invariant s -> pointers_distinct s ->
  pointers_distinct (createUE' i s).
Proof.
  intros Hinv Hdist a b p. unfold createUE.
  set (q := fresh (dom (heap s))).
  assert (Hq : heap s !! q = None) by (apply not_elem_of_dom, is_fresh).
  assert (Hold : forall j, ues s !! j <> Some q).
  { intros j Hj. destruct (Hinv j q Hj) as (ue & Hue & _). congruence. }
  case_match. simpl.
  destruct (decide (z = a)) as [<- | Ha], (decide (z = b)) as [<- | Hb];
    rewrite ?lookup_insert_eq, ?lookup_insert_ne by done.
  - done.
  - intros [= <-] Hb'. by destruct (Hold b).
  - intros Ha' [= <-]. by destruct (Hold a).
  - apply Hdist.
Qed.

Lemma createLoop_wellformed (n : nat) (i : Z) (s : state) :
  imsi_invariant s /\ pointers_distinct s ->
  imsi_invariant (createLoop' n i s) /\ pointers_distinct (createLoop' n i s).
Proof.
  revert i s. induction n as [| n IH]; intros i s [Hinv Hdist]; simpl;
    [done |].
  apply IH. split.
  - by apply createUE_invariant.
  - by apply createUE_distinct.
Qed.

(** The registry's invariants (each UE is stored under its own IMSI, which
    lies in the band [1000000, 9999999], and no two IMSIs share a UE object)
    hold of every registry [NewUERegistry] builds and are kept by every
    operation that returns: [CreateUEs], [SetUECount], [DestroyUE], [MoveUE]
    and [WatchUEs]. *)
Theorem registry_invariants_kept (s : state) :
  (forall count,
     imsi_invariant (NewUERegistry Int63n Float64 GetRandomCell count) /\
     pointers_distinct (NewUERegistry Int63n Float64 GetRandomCell count)) /\
  (imsi_invariant s /\ pointers_distinct s ->
   (forall count,
      imsi_invariant (CreateUEs' count s) /\
      pointers_distinct (CreateUEs' count s)) /\
   (forall count s',
      SetUECount' count s = Some s' ->
      imsi_invariant s' /\ pointers_distinct s') /\
   (forall i r s',
      DestroyUE i s = Some (r, s') ->
      imsi_invariant s' /\ pointers_distinct s') /\
   (forall i c st e s',
      MoveUE i c st s = Some (e, s') ->
      imsi_invariant s' /\ pointers_distinct s') /\
   (forall ch options s',
      WatchUEs rangeOrder ch options s = Some s' ->
      imsi_invariant s' /\ pointers_distinct s')).
Proof.
  split.
  { intros count. apply createLoop_wellformed. split; [intros i p | intros i j p];
      simpl; by rewrite lookup_empty. }
  intros Hwf. split; [| split; [| split; [| split]]].
  - intros count. by apply createLoop_wellformed.
  - intros count s'. unfold SetUECount.
    destruct (_ <? 0); [intros [= <-]; by apply createLoop_wellformed |].
    destruct (0 <? _); [| by intros [= <-]].
    intros Hrm. apply removeLoop_shape in Hrm as [Hsub Hheap].
    by apply (invariants_subseteq s s').
  - intros i r s' Hd. apply DestroyUE_shape in Hd as [Hsub Hheap].
    by apply (invariants_subseteq s s').
  - intros i c st e s'. unfold MoveUE.
    destruct (ues s !! i) as [p |] eqn:Hp; [| by intros [= <- <-]].
    destruct (notify _ _ _) as [s1 |] eqn:Hn; [| done]. simpl.
    intros [= <- <-]. apply notify_only_chans in Hn as [cs ->].
    destruct Hwf as [Hinv Hdist]. split; [| exact Hdist].
    intros j q Hj. simpl in *. destruct (Hinv j q Hj) as (ue & Hue & Hi & Hb).
    destruct (decide (q = p)) as [-> | Hne].
    + rewrite lookup_alter_eq, Hue. simpl. eauto.
    + rewrite lookup_alter_ne by done. eauto.
  - intros ch options s'. unfold WatchUEs.
    set (s1 := if match options with [] => true | o :: _ => Monitor o end
               then set_watchers (watchers s ++ [ch]) s else s).
    assert (Hs1 : ues s1 = ues s /\ heap s1 = heap s)
      by (unfold s1; by case_match).
    destruct Hs1 as [Hu Hh].
    assert (Hgoal : forall cs, imsi_invariant (set_chans cs s1) /\
                               pointers_distinct (set_chans cs s1)).
    { intros cs. apply (invariants_subseteq s); simpl; try done.
      by rewrite Hu. }
    assert (Hs1' : imsi_invariant s1 /\ pointers_distinct s1).
    { apply (invariants_subseteq s); try done. by rewrite Hu. }
    destruct (match options with [] => false | o :: _ => Replay o end);
      [| by intros [= <-]].
    destruct (replayEach _ _ _) as [cs |]; [| done]. simpl.
    destruct (match options with [] => true | o :: _ => Monitor o end);
      [by intros [= <-] |].
    destruct (close ch cs) as [cs' |]; [| done]. simpl. by intros [= <-].
Qed.

(** *** One iteration of CreateUEs *)

(** How [CreateUEs] deals with a collision, seen on one UE: when the first
    IMSI drawn is free the UE is stored under it; when it is in use the IMSI
    is drawn once more and the UE is stored under the second draw whatever
    its state: if that one is free the registry grows by one and keeps every
    UE it had, if it is in use too the UE stored under it is replaced by the
    new one (a newly allocated object) and the registry does not grow. *)
Theorem CreateUEs_collision_retry (s : state) :
  let a := drawIMSI Int63n (drawn s) in
  let b := drawIMSI Int63n (S (drawn s)) in
  let q := fresh (dom (heap s)) in
  heap s !! q = None /\
  (ues s !! a = None ->
   ues (CreateUEs' 1 s) = <[a := q]> (ues s) /\
   size (ues (CreateUEs' 1 s)) = S (size (ues s))) /\
  (is_Some (ues s !! a) -> ues s !! b = None ->
   ues (CreateUEs' 1 s) = <[b := q]> (ues s) /\
   size (ues (CreateUEs' 1 s)) = S (size (ues s)) /\
   ues (CreateUEs' 1 s) !! a = ues s !! a) /\
  (is_Some (ues s !! a) -> is_Some (ues s !! b) ->
   ues (CreateUEs' 1 s) = <[b := q]> (ues s) /\
   size (ues (CreateUEs' 1 s)) = size (ues s) /\
   ues (CreateUEs' 1 s) !! b = Some q).
Proof.
  intros a b q.
  assert (Hq : heap s !! q = None) by (apply not_elem_of_dom, is_fresh).
  split; [exact Hq |].
  unfold CreateUEs. change (Z.to_nat 1) with 1%nat. simpl. unfold createUE.
  fold a b q. split; [| split].
  - intros Ha. destruct (decide (is_Some (ues s !! a))) as [[x Hx] | _];
      [congruence |]. simpl.
    split; [done | by apply map_size_insert_None].
  - intros Ha Hb. destruct (decide (is_Some (ues s !! a))) as [_ | Hn];
      [| done]. simpl.
    split; [done |]. split; [by apply map_size_insert_None |].
    apply lookup_insert_ne. intros <-. destruct Ha as [x Hx]. congruence.
  - intros Ha Hb. destruct (decide (is_Some (ues s !! a))) as [_ | Hn];
      [| done]. simpl.
    split; [done |]. split; [by apply map_size_insert_Some |].
    apply lookup_insert_eq.
Qed.

(** *** Watching *)

(** A watch with [Replay] and [Monitor] on an open channel hands the channel
    one NONE event per UE held, leaves it open and appends it to the watcher
    list; the registry's UEs are untouched. *)
Theorem WatchUEs_replay_and_monitor (ch : nat) (s : state) :
  closed (chanOf (chans s) ch) = false ->
  exists s',
    WatchUEs rangeOrder ch [{| Replay := true; Monitor := true |}] s = Some s' /\
    watchers s' = watchers s ++ [ch] /\
    received (chanOf (chans s') ch) =
      received (chanOf (chans s) ch) ++
      ((fun p => {| EvUE := p; EvType := NONE |}) <$> ListAllUEs rangeOrder s) /\
    closed (chanOf (chans s') ch) = false /\
    ues s' = ues s /\ heap s' = heap s.
Proof.
  intros Hopen. unfold WatchUEs. simpl.
  destruct (replayEach_open (rangeOrder (ues s)).*2 ch (chans s) Hopen)
    as (cs' & Hrun & Hlog & Hcl).
  rewrite Hrun. simpl. eexists. split; [reflexivity |]. by simpl.
Qed.

Lemma occurrences_app (ch : nat) (l1 l2 : list nat) :
  occurrences ch (l1 ++ l2) = (occurrences ch l1 + occurrences ch l2)%nat.
Proof. unfold occurrences. by rewrite filter_app, length_app. Qed.

Lemma occurrences_self (ch : nat) : occurrences ch [ch] = 1%nat.
Proof.
  unfold occurrences. rewrite filter_cons.
  destruct (decide (ch = ch)); [reflexivity | done].
Qed.

Lemma sinks_open_watched (ch : nat) (s : state) :
  sinks_open s -> closed (chanOf (chans s) ch) = false ->
  sinks_open (set_watchers (watchers s ++ [ch]) s).
Proof.
  intros Hopen Hch. unfold sinks_open. simpl.
  apply Forall_app. split; [exact Hopen | by constructor].
Qed.

(** The goroutine of a watch without options appends the channel to the
    watcher list and does nothing else. *)
Lemma WatchUEs_no_options (ch : nat) (s : state) :
  WatchUEs rangeOrder ch [] s = Some (set_watchers (watchers s ++ [ch]) s).
Proof. reflexivity. Qed.

(** [WatchUEs] without options returns without having registered anything:
    it is the goroutine it starts that appends the channel to the watcher
    list, and it replays nothing.  The new watcher entry therefore sees
    exactly the mutations that run after that goroutine.  On a registry
    whose watcher channels, [ch] included, are open, and for a [MoveUE] of a
    live UE followed by its [DestroyUE]: when the goroutine runs before both,
    [ch] is handed the UPDATED events and then the DELETED events of the UE,
    one of each per watcher entry that wraps [ch], the new entry included;
    when it runs between the two, the new entry gets the DELETED event only;
    when it runs after them, the new entry gets neither. *)
Theorem watcher_registered_by_goroutine (ch : nat) (s : state) (i c : Z)
    (st : float) (p : nat) :
  sinks_open s -> closed (chanOf (chans s) ch) = false ->
  ues s !! i = Some p ->
  step rangeOrder (CallWatchUEs ch []) {| registry := s; pending := [] |} =
    Some {| registry := s; pending := [(ch, [])] |} /\
  (exists P,
     steps rangeOrder
       [CallWatchUEs ch []; RunGoroutine 0; CallMoveUE i c st; CallDestroyUE i]
       {| registry := s; pending := [] |} = Some P /\
     pending P = [] /\ watchers (registry P) = watchers s ++ [ch] /\
     received (chanOf (chans (registry P)) ch) =
       received (chanOf (chans s) ch) ++
       replicate (S (occurrences ch (watchers s)))
                 {| EvUE := p; EvType := UPDATED |} ++
       replicate (S (occurrences ch (watchers s)))
                 {| EvUE := p; EvType := DELETED |}) /\
  (exists P,
     steps rangeOrder
       [CallWatchUEs ch []; CallMoveUE i c st; RunGoroutine 0; CallDestroyUE i]
       {| registry := s; pending := [] |} = Some P /\
     pending P = [] /\ watchers (registry P) = watchers s ++ [ch] /\
     received (chanOf (chans (registry P)) ch) =
       received (chanOf (chans s) ch) ++
       replicate (occurrences ch (watchers s))
                 {| EvUE := p; EvType := UPDATED |} ++
       replicate (S (occurrences ch (watchers s)))
                 {| EvUE := p; EvType := DELETED |}) /\
  (exists P,
     steps rangeOrder
       [CallWatchUEs ch []; CallMoveUE i c st; CallDestroyUE i; RunGoroutine 0]
       {| registry := s; pending := [] |} = Some P /\
     pending P = [] /\ watchers (registry P) = watchers s ++ [ch] /\
     received (chanOf (chans (registry P)) ch) =
       received (chanOf (chans s) ch) ++
       replicate (occurrences ch (watchers s))
                 {| EvUE := p; EvType := UPDATED |} ++
       replicate (occurrences ch (watchers s))
                 {| EvUE := p; EvType := DELETED |}).
Proof.
  intros Hopen Hch Hp.
  split; [reflexivity |].
  split; [| split].
  - (* the goroutine runs first *)
    set (s1 := set_watchers (watchers s ++ [ch]) s).
    pose proof (sinks_open_watched ch s Hopen Hch) as Hopen1. fold s1 in Hopen1.
    destruct (MoveUE_live s1 i c st p Hopen1 Hp) as (cs2 & Hmove & Hlog2).
    set (s2 := set_chans cs2 (set_heap (alter (setCell c st) p (heap s1)) s1))
      in *.
    assert (Hopen2 : sinks_open s2).
    { unfold sinks_open in *. simpl.
      eapply Forall_impl; [exact Hopen1 |]. intros w Hw. simpl in *.
      destruct (Hlog2 w) as [_ ->]. exact Hw. }
    destruct (DestroyUE_live_log i p s2 Hopen2 Hp) as (cs3 & Hdel & Hlog3).
    eexists. split.
    { cbn [steps step registry pending app mbind option_bind lookup
           list_lookup fst snd].
      rewrite WatchUEs_no_options. cbn [mbind option_bind registry pending].
      fold s1. rewrite Hmove. cbn [mbind option_bind registry pending snd].
      fold s2. rewrite Hdel. reflexivity. }
    cbn [registry pending snd chans set_chans watchers set_ues].
    split; [reflexivity |]. split; [reflexivity |].
    destruct (Hlog3 ch) as [-> _].
    change (chans s2) with cs2. change (watchers s2) with (watchers s ++ [ch]).
    destruct (Hlog2 ch) as [-> _].
    change (chans s1) with (chans s).
    change (watchers s1) with (watchers s ++ [ch]).
    rewrite occurrences_app, occurrences_self, Nat.add_1_r.
    by rewrite <- app_assoc.
  - (* the goroutine runs between the two calls *)
    destruct (MoveUE_live s i c st p Hopen Hp) as (cs2 & Hmove & Hlog2).
    set (s2 := set_chans cs2 (set_heap (alter (setCell c st) p (heap s)) s))
      in *.
    set (s3 := set_watchers (watchers s2 ++ [ch]) s2).
    assert (Hopen3 : sinks_open s3).
    { apply sinks_open_watched.
      - unfold sinks_open in *. simpl.
        eapply Forall_impl; [exact Hopen |]. intros w Hw. simpl in *.
        destruct (Hlog2 w) as [_ ->]. exact Hw.
      - simpl. destruct (Hlog2 ch) as [_ ->]. exact Hch. }
    destruct (DestroyUE_live_log i p s3 Hopen3 Hp) as (cs4 & Hdel & Hlog4).
    eexists. split.
    { cbn [steps step registry pending app mbind option_bind].
      rewrite Hmove. cbn [mbind option_bind registry pending snd lookup
                          list_lookup fst].
      fold s2. rewrite WatchUEs_no_options.
      cbn [mbind option_bind registry pending]. fold s3.
      rewrite Hdel. reflexivity. }
    cbn [registry pending snd chans set_chans watchers set_ues].
    split; [reflexivity |]. split; [reflexivity |].
    destruct (Hlog4 ch) as [-> _].
    change (chans s3) with cs2. change (watchers s3) with (watchers s ++ [ch]).
    destruct (Hlog2 ch) as [-> _].
    rewrite occurrences_app, occurrences_self, Nat.add_1_r.
    by rewrite <- app_assoc.
  - (* the goroutine runs last *)
    destruct (MoveUE_live s i c st p Hopen Hp) as (cs2 & Hmove & Hlog2).
    set (s2 := set_chans cs2 (set_heap (alter (setCell c st) p (heap s)) s))
      in *.
    assert (Hopen2 : sinks_open s2).
    { unfold sinks_open in *. simpl.
      eapply Forall_impl; [exact Hopen |]. intros w Hw. simpl in *.
      destruct (Hlog2 w) as [_ ->]. exact Hw. }
    destruct (DestroyUE_live_log i p s2 Hopen2 Hp) as (cs3 & Hdel & Hlog3).
    eexists. split.
    { cbn [steps step registry pending app mbind option_bind].
      rewrite Hmove. cbn [mbind option_bind registry pending snd].
      fold s2. rewrite Hdel.
      cbn [mbind option_bind registry pending snd lookup list_lookup fst].
      rewrite WatchUEs_no_options. reflexivity. }
    cbn [registry pending snd chans set_chans watchers set_ues set_watchers].
    split; [reflexivity |]. split; [reflexivity |].
    destruct (Hlog3 ch) as [-> _].
    change (chans s2) with cs2. change (watchers s2) with (watchers s).
    destruct (Hlog2 ch) as [-> _].
    by rewrite <- app_assoc.
Qed.

Lemma notifyEach_closed (ws : list nat) (w : nat) (ev : UEEvent)
    (cs : gmap nat sink) :
  w ∈ ws -> closed (chanOf cs w) = true -> notifyEach ws ev cs = None.
Proof.
  revert cs. induction ws as [| w0 ws IH]; intros cs Hin Hcl.
  - by apply elem_of_nil in Hin.
  - simpl. unfold send.
    destruct (closed (chanOf cs w0)) eqn:Hw0; [done |]. simpl.
    apply elem_of_cons in Hin as [-> | Hin]; [congruence |].
    apply IH; [exact Hin |]. rewrite chanOf_insert.
    destruct (decide (w0 = w)) as [-> | _]; [congruence | exact Hcl].
Qed.

(** A replay-only watch uses its channel up: it closes the channel, so a
    second replay-only watch on the same channel panics (on the first send,
    or on the close when the registry is empty), and if the channel also
    sits on the watcher list every later [MoveUE] or [DestroyUE] of a live
    UE panics on the send to it. *)
Theorem closed_channel_panics (ch : nat) (s : state) :
  closed (chanOf (chans s) ch) = false ->
  exists s',
    WatchUEs rangeOrder ch [{| Replay := true; Monitor := false |}] s = Some s' /\
    WatchUEs rangeOrder ch [{| Replay := true; Monitor := false |}] s' = None /\
    (ch ∈ watchers s ->
     forall i c st, is_Some (ues s !! i) ->
       MoveUE i c st s' = None /\ DestroyUE i s' = None).
Proof.
  intros Hopen.
  assert (exists s',
            WatchUEs rangeOrder ch [{| Replay := true; Monitor := false |}] s
              = Some s' /\
            closed (chanOf (chans s') ch) = true /\
            watchers s' = watchers s /\ ues s' = ues s)
    as (s' & Hrun & Hcl & Hw & Hu).
  { unfold WatchUEs. simpl.
    destruct (replayEach_open (rangeOrder (ues s)).*2 ch (chans s) Hopen)
      as (cs' & Hrep & _ & Hcl).
    rewrite Hrep. simpl. unfold close. rewrite Hcl. simpl.
    eexists. split; [reflexivity |]. simpl. rewrite chanOf_insert.
    by destruct (decide (ch = ch)). }
  exists s'. split; [exact Hrun |]. split.
  - unfold WatchUEs. simpl.
    destruct ((rangeOrder (ues s')).*2) as [| p us]; simpl.
    + unfold close. by rewrite Hcl.
    + unfold send. by rewrite Hcl.
  - intros Hin i c st [p Hp]. rewrite <- Hu in Hp. rewrite <- Hw in Hin.
    unfold MoveUE, DestroyUE, notify. rewrite Hp. simpl.
    by rewrite !(notifyEach_closed (watchers s') ch).
Qed.

(** *** Listing *)

Lemma elem_of_ListAllUEs_iff (s : state) (p : nat) :
  p ∈ ListAllUEs rangeOrder s <-> exists i, ues s !! i = Some p.
Proof.
  unfold ListAllUEs. rewrite list_elem_of_fmap. split.
  - intros ([i q] & -> & Hin). rewrite rangeOrder_perm in Hin.
    apply elem_of_map_to_list in Hin. eauto.
  - intros (i & Hi). exists (i, p). split; [done |].
    rewrite rangeOrder_perm. by apply elem_of_map_to_list.
Qed.

Lemma elem_of_ListUEs_iff (s : state) (ecgi : Z) (p : nat) :
  p ∈ ListUEs rangeOrder ecgi s <->
  (exists i, ues s !! i = Some p) /\
  (ECGI ∘ Cell) <$> heap s !! p = Some ecgi.
Proof.
  unfold ListUEs. rewrite list_elem_of_filter.
  fold (ListAllUEs rangeOrder s). rewrite elem_of_ListAllUEs_iff.
  split; intros [? ?]; by split.
Qed.

(** [ListAllUEs] lists the live UEs, all of them and nothing else: its
    length is the number of UEs held, a pointer is listed exactly when some
    IMSI is stored under it, and when no two IMSIs share a UE object no
    pointer is listed twice.  [ListUEs] lists exactly those of them whose
    cell has the ECGI asked for. *)
Theorem listings_complete (s : state) (ecgi : Z) :
  length (ListAllUEs rangeOrder s) = size (ues s) /\
  (forall p, p ∈ ListAllUEs rangeOrder s <-> exists i, GetUE i s = Ok p) /\
  (pointers_distinct s -> NoDup (ListAllUEs rangeOrder s)) /\
  (forall p, p ∈ ListUEs rangeOrder ecgi s <->
             p ∈ ListAllUEs rangeOrder s /\
             (ECGI ∘ Cell) <$> heap s !! p = Some ecgi) /\
  (pointers_distinct s -> NoDup (ListUEs rangeOrder ecgi s)).
Proof.
  assert (Hnd : pointers_distinct s -> NoDup (ListAllUEs rangeOrder s)).
  { intros Hdist. unfold ListAllUEs. apply NoDup_fmap_2_strong.
    - intros [i p] [j q] Hi Hj Heq. simpl in Heq. subst q.
      rewrite rangeOrder_perm in Hi, Hj.
      apply elem_of_map_to_list in Hi, Hj.
      by rewrite (Hdist i j p Hi Hj).
    - rewrite rangeOrder_perm. apply NoDup_map_to_list. }
  split; [| split; [| split; [| split]]].
  - unfold ListAllUEs. by rewrite length_fmap, rangeOrder_perm, length_map_to_list.
  - intros p. rewrite elem_of_ListAllUEs_iff. unfold GetUE.
    split; intros (i & Hi); exists i.
    + by rewrite Hi.
    + destruct (ues s !! i); by inversion Hi.
  - exact Hnd.
  - intros p. unfold ListUEs. rewrite list_elem_of_filter.
    unfold ListAllUEs. split; intros [? ?]; by split.
  - intros Hdist. unfold ListUEs. apply NoDup_filter.
    fold (ListAllUEs rangeOrder s). by apply Hnd.
Qed.

(** [MoveUE] moves the UE between the per-cell listings: after
    [MoveUE i c st] of a live UE (the watchers' channels being open),
    [ListUEs c] lists the UE, [ListUEs] of any other cell does not, and for
    every other pointer each per-cell listing answers as before. *)
Theorem MoveUE_changes_cell_listing (s : state) (i c : Z) (st : float)
    (p : nat) (ue : UE) :
  sinks_open s -> ues s !! i = Some p -> heap s !! p = Some ue ->
  exists s',
    MoveUE i c st s = Some (None, s') /\
    p ∈ ListUEs rangeOrder c s' /\
    (forall e, e <> c -> p ∉ ListUEs rangeOrder e s') /\
    (forall q e, q <> p ->
       q ∈ ListUEs rangeOrder e s' <-> q ∈ ListUEs rangeOrder e s).
Proof.
  intros Hopen Hp Hue.
  destruct (MoveUE_live s i c st p Hopen Hp) as (cs' & Hrun & _).
  eexists. split; [exact Hrun |]. split; [| split].
  - apply elem_of_ListUEs_iff. simpl. split; [eauto |].
    by rewrite lookup_alter_eq, Hue.
  - intros e He Hin. apply elem_of_ListUEs_iff in Hin as [_ Hin].
    simpl in Hin. rewrite lookup_alter_eq, Hue in Hin. simpl in Hin.
    congruence.
  - intros q e Hq. rewrite !elem_of_ListUEs_iff. simpl.
    by rewrite lookup_alter_ne.
Qed.

End RegistryExtras.

Lemma sampleOrder_perm (m : gmap Z nat) : sampleOrder m ≡ₚ map_to_list m.
Proof. reflexivity. Qed.

Lemma boundedInt63n_range (k : nat) (n : Z) :
  0 < n -> 0 <= boundedInt63n k n < n.
Proof. intros Hn. unfold boundedInt63n. by apply Z.mod_pos_bound. Qed.

Lemma SetUECount_scales_down_witness :
  exists s',
    SetUECount boundedInt63n sampleFloat64 sampleCell sampleOrder 1 watchedPair
      = Some s' /\
    GetUECount s' = 1 /\
    exists news,
      received (chanOf (chans s') 7%nat) = news /\
      Z.of_nat (length news) = 1 /\
      Forall (fun ev => EvType ev = DELETED) news.
Proof.
  destruct (SetUECount_scales_down boundedInt63n sampleFloat64 sampleCell
              sampleOrder sampleOrder_perm 1 watchedPair)
    as (s' & Hrun & Hcount & _ & _ & _ & Hlog).
  { repeat constructor. }
  { vm_compute. split; discriminate. }
  { vm_compute. reflexivity. }
  exists s'. split; [exact Hrun |]. split; [exact Hcount |].
  destruct (Hlog 7%nat) as (news & Hr & Hl & Hall).
  exists news. split; [exact Hr |]. split; [exact Hl | exact Hall].
Defined.


Lemma SetUECount_scales_up_witness :
  exists s',
    SetUECount sampleInt63n sampleFloat64 sampleCell sampleOrder 3
      watchedRegistry = Some s' /\
    1 <= GetUECount s' <= 3 /\
    chans s' = chans watchedRegistry.
Proof.
  destruct (SetUECount_scales_up sampleInt63n sampleFloat64 sampleCell
              sampleOrder 3 watchedRegistry)
    as (s' & Hrun & Hcount & Hchans & _).
  { vm_compute. split; [discriminate | reflexivity]. }
  exists s'. split; [exact Hrun |]. split; [exact Hcount | exact Hchans].
Defined.

Lemma watchedPair_wellformed :
  imsi_invariant watchedPair /\ pointers_distinct watchedPair.
Proof.
  apply (createLoop_wellformed boundedInt63n sampleFloat64 sampleCell
           boundedInt63n_range 2 0).
  split; [intros i p | intros i j p]; simpl; by rewrite lookup_empty.
Qed.

Lemma registry_invariants_kept_witness :
  (imsi_invariant watchedPair /\ pointers_distinct watchedPair) /\
  (imsi_invariant
     (CreateUEs boundedInt63n sampleFloat64 sampleCell 3 watchedPair) /\
   pointers_distinct
     (CreateUEs boundedInt63n sampleFloat64 sampleCell 3 watchedPair)).
Proof.
  pose proof (registry_invariants_kept boundedInt63n sampleFloat64 sampleCell
                sampleOrder boundedInt63n_range watchedPair) as [Hnew Hkept].
  assert (Hwf : imsi_invariant watchedPair /\ pointers_distinct watchedPair)
    by exact (Hnew 2).
  split; [exact Hwf |].
  destruct (Hkept Hwf) as (Hcreate & _). exact (Hcreate 3).
Defined.

Lemma WatchUEs_replay_only_witness :
  exists s',
    WatchUEs sampleOrder 9 [{| Replay := true; Monitor := false |}] watchedPair
      = Some s' /\
    received (chanOf (chans s') 9%nat) =
      [{| EvUE := 1; EvType := NONE |}; {| EvUE := 0; EvType := NONE |}] /\
    closed (chanOf (chans s') 9%nat) = true /\
    watchers s' = [7%nat].
Proof.
  destruct (WatchUEs_replay_only sampleOrder sampleOrder_perm 9%nat watchedPair)
    as (s' & Hrun & Hlog & _ & Hcl & Hw & _).
  { reflexivity. }
  exists s'. split; [exact Hrun |]. rewrite Hlog.
  split; [reflexivity |]. split; [exact Hcl | exact Hw].
Defined.

Lemma WatchUEs_replay_and_monitor_witness :
  exists s',
    WatchUEs sampleOrder 9 [{| Replay := true; Monitor := true |}] watchedPair
      = Some s' /\
    watchers s' = [7%nat; 9%nat] /\
    received (chanOf (chans s') 9%nat) =
      [{| EvUE := 1; EvType := NONE |}; {| EvUE := 0; EvType := NONE |}] /\
    closed (chanOf (chans s') 9%nat) = false.
Proof.
  destruct (WatchUEs_replay_and_monitor sampleOrder 9%nat watchedPair)
    as (s' & Hrun & Hw & Hlog & Hcl & _).
  { reflexivity. }
  exists s'. split; [exact Hrun |]. split; [exact Hw |]. rewrite Hlog.
  split; [reflexivity | exact Hcl].
Defined.

Lemma watcher_registered_by_goroutine_witness :
  (exists P,
     steps sampleOrder
       [CallWatchUEs 9 []; RunGoroutine 0; CallMoveUE 1000005 42 1;
        CallDestroyUE 1000005]
       {| registry := watchedPair; pending := [] |} = Some P /\
     received (chanOf (chans (registry P)) 9%nat) =
       [{| EvUE := 0; EvType := UPDATED |};
        {| EvUE := 0; EvType := DELETED |}]) /\
  (exists P,
     steps sampleOrder
       [CallWatchUEs 9 []; CallMoveUE 1000005 42 1; RunGoroutine 0;
        CallDestroyUE 1000005]
       {| registry := watchedPair; pending := [] |} = Some P /\
     received (chanOf (chans (registry P)) 9%nat) =
       [{| EvUE := 0; EvType := DELETED |}]) /\
  (exists P,
     steps sampleOrder
       [CallWatchUEs 9 []; CallMoveUE 1000005 42 1; CallDestroyUE 1000005;
        RunGoroutine 0]
       {| registry := watchedPair; pending := [] |} = Some P /\
     received (chanOf (chans (registry P)) 9%nat) = []).
Proof.
  destruct (watcher_registered_by_goroutine sampleOrder 9%nat watchedPair
              1000005 42 1 0%nat)
    as (_ & (PA & HA & _ & _ & HlogA) & (PB & HB & _ & _ & HlogB)
        & (PC & HC & _ & _ & HlogC)).
  { repeat constructor. }
  { reflexivity. }
  { reflexivity. }
  split; [| split].
  - exists PA. split; [exact HA |]. rewrite HlogA. reflexivity.
  - exists PB. split; [exact HB |]. rewrite HlogB. reflexivity.
  - exists PC. split; [exact HC |]. rewrite HlogC. reflexivity.
Defined.

Lemma closed_channel_panics_witness :
  exists s',
    WatchUEs sampleOrder 7 [{| Replay := true; Monitor := false |}] watchedPair
      = Some s' /\
    WatchUEs sampleOrder 7 [{| Replay := true; Monitor := false |}] s' = None /\
    MoveUE 1000005 42 1 s' = None /\
    DestroyUE 1000005 s' = None.
Proof.
  destruct (closed_channel_panics sampleOrder 7%nat watchedPair)
    as (s' & Hrun & Hagain & Hmut).
  { reflexivity. }
  exists s'. split; [exact Hrun |]. split; [exact Hagain |].
  apply Hmut.
  - apply list_elem_of_here.
  - by exists 0%nat.
Defined.

Lemma listings_complete_witness :
  length (ListAllUEs sampleOrder watchedPair) = 2%nat /\
  NoDup (ListAllUEs sampleOrder watchedPair) /\
  NoDup (ListUEs sampleOrder 0x13a1234567 watchedPair).
Proof.
  destruct (listings_complete sampleOrder sampleOrder_perm watchedPair
              0x13a1234567) as (Hlen & _ & Hnd & _ & Hndc).
  pose proof watchedPair_wellformed as [_ Hdist].
  split; [exact Hlen |]. split; [by apply Hnd | by apply Hndc].
Defined.

Lemma MoveUE_changes_cell_listing_witness :
  exists s',
    MoveUE 1000005 42 1 watchedPair = Some (None, s') /\
    0%nat ∈ ListUEs sampleOrder 42 s' /\
    (0%nat ∉ ListUEs sampleOrder 0x13a1234567 s') /\
    ((1%nat ∈ ListUEs sampleOrder 0x13a1234567 s') <->
     (1%nat ∈ ListUEs sampleOrder 0x13a1234567 watchedPair)).
Proof.
  destruct (MoveUE_changes_cell_listing sampleOrder sampleOrder_perm
              watchedPair 1000005 42 1 0%nat
              {| IMSI := 1000005; UEType := "phone";
                 Location := {| Lat := 0; Lng := 0 |}; Rotation := 0;
                 Cell := {| ID := 0x13a1234567; ECGI := 0x13a1234567;
                            Strength := 50 |};
                 CRNTI := 90125; Cells := []; IsAdmitted := false |})
    as (s' & Hrun & Hin & Hout & Hothers).
  { repeat constructor. }
  { reflexivity. }
  { vm_compute. reflexivity. }
  exists s'. split; [exact Hrun |]. split; [exact Hin |].
  split; [by apply Hout | by apply Hothers].
Defined.

End UesFacts.

(* ===================================================================== *)
(** ** Properties of the KPM service model client *)
(* ===================================================================== *)

Module KpmFacts.

Import Kpm.

(** *** Admission of the requested actions *)

Lemma admitActions_accepted (actionList : list RicAction) (acc : list Z)
    (rej : gmap Z Cause) :
  (admitActions actionList acc rej).1 =
  acc ++ (RicActionId <$>
            filter (fun a => RicActionType a = RICACTION_TYPE_REPORT) actionList).
Proof.
  revert acc rej. induction actionList as [| a l IH]; intros acc rej; simpl.
  - by rewrite app_nil_r.
  - rewrite IH, filter_cons.
    destruct (decide (RicActionType a = RICACTION_TYPE_REPORT)); simpl.
    + by rewrite <- app_assoc.
    + done.
Qed.

Lemma filter_report_nonempty (actionList : list RicAction) :
  Exists (fun a => RicActionType a = RICACTION_TYPE_REPORT) actionList ->
  length (RicActionId <$>
            filter (fun a => RicActionType a = RICACTION_TYPE_REPORT) actionList)
  <> 0%nat.
Proof.
  intros Hex. rewrite length_fmap.
  apply Exists_exists in Hex as (a & Hin & Ha).
  assert (Hf : a ∈ filter (fun a => RicActionType a = RICACTION_TYPE_REPORT)
                          actionList)
    by (apply list_elem_of_filter; done).
  destruct (filter _ actionList); [by apply elem_of_nil in Hf | simpl; lia].
Qed.

Lemma filter_report_empty (actionList : list RicAction) :
  Forall (fun a => RicActionType a = RICACTION_TYPE_INSERT \/
                   RicActionType a = RICACTION_TYPE_POLICY) actionList ->
  filter (fun a => RicActionType a = RICACTION_TYPE_REPORT) actionList = [].
Proof.
  induction 1 as [| a l Ha _ IH]; [done |].
  rewrite filter_cons, IH.
  destruct (decide (RicActionType a = RICACTION_TYPE_REPORT)) as [Hr |]; [| done].
  unfold RICACTION_TYPE_REPORT, RICACTION_TYPE_INSERT, RICACTION_TYPE_POLICY in *.
  lia.
Qed.

(** *** The subscribe handler *)

(** Carries out the field assignments of the options passed to
    [NewSubscription]. *)
Ltac apply_options :=
  cbv [NewSubscription foldl WithRequestID WithRanFuncID WithRicInstanceID
       WithActionsAccepted WithActionsNotAdmitted WithCause
       reqID ranFuncID ricInstanceID ricActionsAccepted
       ricActionsNotAdmitted cause].

Section ClientFacts.

Context (E : E2AP) (sm : ServiceModel).

(** C5. For a request with well-formed identifiers whose actions are all of
    type insert or policy, and whose failure response the builder accepts,
    [RICSubscription] returns that failure response, built with cause
    "action not supported", and a nil error, starts no report task and
    leaves the Subscription Registry as it was: when it held no record under
    the key derived from the request, a lookup of that key after the call
    fails with NotFound. *)
Theorem RICSubscription_rejects_unsupported
    (request : RicsubscriptionRequest E) (w : World) (r f i : Z)
    (failure : RicsubscriptionFailure E) :
  GetRequesterID E request = Ok r ->
  GetRanFunctionID E request = Ok f ->
  GetRicInstanceID E request = Ok i ->
  Forall (fun a => RicActionType a = RICACTION_TYPE_INSERT \/
                   RicActionType a = RICACTION_TYPE_POLICY)
         (GetRicActionToBeSetupList E request) ->
  BuildSubscriptionFailure E
    {| reqID := r; ranFuncID := f; ricInstanceID := i;
       ricActionsAccepted := []; ricActionsNotAdmitted := ∅;
       cause := Some (Cause_RicRequest CAUSE_RICREQUEST_ACTION_NOT_SUPPORTED) |}
    = Ok failure ->
  exists w',
    RICSubscription E request w = ((None, Some failure, None), w', None) /\
    subStore w' = subStore w /\
    (subStore w !! Subscriptions.NewID i r f = None ->
     exists err,
       Subscriptions.Get (Subscriptions.NewID i r f) (subStore w') = Fail err /\
       errType err = NotFound).
Proof.
  intros Hr Hf Hi Hall Hbuild. exists w.
  unfold RICSubscription. rewrite Hr, Hf, Hi.
  destruct (admitActions _ [] ∅) as [accepted notAdmitted] eqn:Hadmit.
  pose proof (admitActions_accepted (GetRicActionToBeSetupList E request) [] ∅)
    as Hacc.
  rewrite Hadmit, filter_report_empty in Hacc by exact Hall.
  simpl in Hacc. subst accepted. simpl.
  apply_options. rewrite Hbuild.
  repeat split. intros Hnone. unfold Subscriptions.Get. rewrite Hnone. eauto.
Qed.

(** C1 (as the code has it).  For a request with well-formed identifiers,
    at least one action of type report, a report period that parses and a
    response the builder accepts, [RICSubscription] returns that
    subscription-success response, which lists exactly the ids of the report
    actions in request order, with a nil failure and a nil error, and starts
    the report task with the period.  The handler itself stores nothing: the
    Subscription Registry after the call is the one before, so the lookup of
    the derived key answers after the call what it answered before. *)
Theorem RICSubscription_admits
    (request : RicsubscriptionRequest E) (w : World) (r f i period : Z)
    (response : RicsubscriptionResponse E) :
  GetRequesterID E request = Ok r ->
  GetRanFunctionID E request = Ok f ->
  GetRicInstanceID E request = Ok i ->
  Exists (fun a => RicActionType a = RICACTION_TYPE_REPORT)
         (GetRicActionToBeSetupList E request) ->
  getReportPeriod E request = Ok period ->
  BuildSubscriptionResponse E
    {| reqID := r; ranFuncID := f; ricInstanceID := i;
       ricActionsAccepted :=
         RicActionId <$>
           filter (fun a => RicActionType a = RICACTION_TYPE_REPORT)
                  (GetRicActionToBeSetupList E request);
       ricActionsNotAdmitted :=
         (admitActions (GetRicActionToBeSetupList E request) [] ∅).2;
       cause := None |}
    = Ok response ->
  exists w' subscription,
    RICSubscription E request w =
      ((Some response, None, None), w',
       Some {| interval := period; subscription := subscription |}) /\
    BuildSubscriptionResponse E subscription = Ok response /\
    ricActionsAccepted subscription =
      RicActionId <$>
        filter (fun a => RicActionType a = RICACTION_TYPE_REPORT)
               (GetRicActionToBeSetupList E request) /\
    subStore w' = subStore w /\
    Subscriptions.Get (Subscriptions.NewID i r f) (subStore w') =
      Subscriptions.Get (Subscriptions.NewID i r f) (subStore w).
Proof.
  intros Hr Hf Hi Hex Hperiod Hbuild. exists w.
  unfold RICSubscription. rewrite Hr, Hf, Hi.
  pose proof (admitActions_accepted (GetRicActionToBeSetupList E request) [] ∅)
    as Hacc.
  destruct (admitActions _ [] ∅) as [accepted notAdmitted] eqn:Hadmit.
  simpl in Hacc, Hbuild. subst accepted.
  destruct (decide _) as [Hzero | _].
  { by apply filter_report_nonempty in Hex. }
  rewrite Hperiod. apply_options. rewrite Hbuild.
  eexists. repeat split. exact Hbuild.
Qed.

(** *** The report task *)

Lemma sentOn_set_e2sent (w : World) (ch ch' : nat)
    (l : list Indication.Ricindication) :
  sentOn (set_e2sent (<[ch := l]> (e2sent w)) w) ch' =
  if decide (ch = ch') then l else sentOn w ch'.
Proof.
  unfold sentOn. simpl. destruct (decide (ch = ch')) as [-> | Hne].
  - by rewrite lookup_insert_eq.
  - by rewrite lookup_insert_ne.
Qed.

(** A round of the loop encodes nothing, reads no UE, and sends at most one
    indication, made of the header and the message the task carries. *)
Lemma reportLoop_sends (wakeup : Wakeup) (w w' : World) (task task' : Task)
    (h m : list byte) :
  carries h m task ->
  reportLoop E wakeup w task = Some (w', task') ->
  carries h m task' /\
  encoded w' = encoded w /\
  ueStore w' = ueStore w /\
  subStore w' = subStore w /\
  forall ch, exists news,
    sentOn w' ch = sentOn w ch ++ news /\
    Forall (fun pdu => Indication.RicindicationHeader pdu = h /\
                       Indication.RicindicationMessage pdu = m) news.
Proof.
  intros Hc Hstep. destruct task as [s0 id h0 m0 | |]; simpl in Hstep; try done.
  destruct Hc as [-> ->].
  destruct (subStore w !! id) as [sub |]; simpl in Hstep; [| done].
  destruct (Subscriptions.Ticker sub) as [t |]; simpl in Hstep; [| done].
  destruct (tickers w !! t) as [k |]; simpl in Hstep; [| done].
  destruct wakeup as [sendErr |].
  - destruct (Subscriptions.running k); [| done].
    unfold Build in Hstep.
    destruct (Validate E _) as [err |].
    { inversion Hstep; subst. repeat split.
      intros ch. exists []. by rewrite app_nil_r. }
    destruct sendErr as [err |]; inversion Hstep; subst.
    { repeat split. intros ch. exists []. by rewrite app_nil_r. }
    repeat split. intros ch. rewrite sentOn_set_e2sent.
    destruct (decide (Subscriptions.E2Channel sub = ch)) as [<- | Hne].
    + eexists. split; [reflexivity |]. by repeat constructor.
    + exists []. by rewrite app_nil_r.
  - inversion Hstep; subst. repeat split.
    intros ch. exists []. by rewrite app_nil_r.
Qed.

Lemma run_sends (actions : list Action) (w : World) (task : Task)
    (h m : list byte) :
  carries h m task ->
  encoded (run E actions w task).1 = encoded w /\
  forall ch, exists news,
    sentOn (run E actions w task).1 ch = sentOn w ch ++ news /\
    Forall (fun pdu => Indication.RicindicationHeader pdu = h /\
                       Indication.RicindicationMessage pdu = m) news.
Proof.
  revert w task. induction actions as [| a actions IH]; intros w task Hc.
  - simpl. split; [done |]. intros ch. exists []. by rewrite app_nil_r.
  - destruct a as [wakeup | g]; simpl.
    + destruct (reportLoop E wakeup w task) as [[w' task'] |] eqn:Hstep;
        [| by apply IH].
      destruct (reportLoop_sends wakeup w w' task task' h m Hc Hstep)
        as (Hc' & Henc & _ & _ & Hsent).
      destruct (IH w' task' Hc') as [Henc' Hsent'].
      split; [congruence |]. intros ch.
      destruct (Hsent ch) as (n1 & H1 & HF1).
      destruct (Hsent' ch) as (n2 & H2 & HF2).
      exists (n1 ++ n2). rewrite H2, H1, app_assoc.
      split; [done | by apply Forall_app].
    + apply (IH (set_ueStore (g (ueStore w)) w) task Hc).
Qed.

(** C2 (as the code has it).  When [reportIndication] reaches its loop, it
    has encoded the header once and the message once, the message from the
    UE count read at that moment, before the first tick.  Whatever follows
    (ticks, failed sends, the end of the session, changes of the UE registry
    by the rest of the program), no further header or message is encoded,
    and every indication the task sends carries that header and that
    message. *)
Theorem report_payload_fixed_at_start
    (period : Z) (subscription subscription' : Subscription)
    (w w1 : World) (id : Z * Z * Z) (h m : list byte)
    (actions : list Action) :
  reportIndication E sm period subscription w =
    (w1, Reporting subscription' id h m) ->
  HeaderToAsn1Bytes E
    {| plmnID := wrap 24 (wrap 32 (PlmnID sm)); gNbID := GnbID sm;
       sst := "1"; sd := "SD1";
       plmnIDnrcgi := wrap 24 (wrap 32 (PlmnID sm)) |} = Ok h /\
  MessageToAsn1Bytes E
    {| numberOfActiveUes := int32 (Ues.GetUECount (ueStore w)) |} = Ok m /\
  encoded (run E actions w1 (Reporting subscription' id h m)).1 =
    encoded w ++
    [EncodedHeader
       {| plmnID := wrap 24 (wrap 32 (PlmnID sm)); gNbID := GnbID sm;
          sst := "1"; sd := "SD1";
          plmnIDnrcgi := wrap 24 (wrap 32 (PlmnID sm)) |};
     EncodedMessage
       {| numberOfActiveUes := int32 (Ues.GetUECount (ueStore w)) |}] /\
  forall ch, exists news,
    sentOn (run E actions w1 (Reporting subscription' id h m)).1 ch =
      sentOn w ch ++ news /\
    Forall (fun pdu => Indication.RicindicationHeader pdu = h /\
                       Indication.RicindicationMessage pdu = m) news.
Proof.
  intros Hstart. unfold reportIndication, parseGnbID in Hstart.
  destruct (decide (0 <= GnbID sm < 2 ^ 64)); [| by inversion Hstart].
  destruct (HeaderToAsn1Bytes E _) as [h0 |] eqn:Hh; [| by inversion Hstart].
  simpl in Hstart.
  destruct (MessageToAsn1Bytes E _) as [m0 |] eqn:Hm; [| by inversion Hstart].
  destruct (Subscriptions.Get _ _) as [sub |]; [| by inversion Hstart].
  destruct (decide (_ <= 0)); [by inversion Hstart |].
  inversion Hstart; subst; clear Hstart.
  split; [done |]. split; [done |].
  match goal with |- context [run E actions ?w0 ?t0] =>
    destruct (run_sends actions w0 t0 h m) as [Henc Hsent]; [by split |]
  end.
  split.
  - rewrite Henc. simpl. by rewrite <- app_assoc.
  - exact Hsent.
Qed.

(** *** The delete handler *)

Lemma run_quiet (actions : list Action) (id : Z * Z * Z) (w : World)
    (task : Task) :
  quiet id w task -> e2sent (run E actions w task).1 = e2sent w.
Proof.
  revert w task. induction actions as [| a actions IH]; intros w task Hq;
    [done |].
  destruct a as [wakeup | g]; simpl.
  - destruct (reportLoop E wakeup w task) as [[w' task'] |] eqn:Hstep;
      [| by apply IH].
    destruct task as [s0 id' h0 m0 | |]; simpl in Hstep; try done.
    destruct Hq as [-> Hstopped].
    destruct (subStore w !! id) as [sub |] eqn:Hsub; simpl in Hstep; [| done].
    destruct (Subscriptions.Ticker sub) as [t |] eqn:Ht; simpl in Hstep;
      [| done].
    destruct (tickers w !! t) as [k |] eqn:Hk; simpl in Hstep; [| done].
    destruct wakeup as [sendErr |].
    + by rewrite (Hstopped sub t k Hsub Ht Hk) in Hstep.
    + inversion Hstep; subst. by rewrite IH.
  - rewrite IH; [done |]. by destruct task.
Qed.

Lemma stopTicker_stopped (id : Z * Z * Z) (w : World)
    (sub : Subscriptions.Subscription) (t : nat) :
  subStore w !! id = Some sub -> Subscriptions.Ticker sub = Some t ->
  ticker_stopped id (stopTicker t w).
Proof.
  intros Hsub Ht sub' t' k' Hsub' Ht' Hk'. simpl in *.
  assert (sub' = sub) as -> by congruence.
  assert (t' = t) as -> by congruence.
  rewrite lookup_alter_eq in Hk'.
  destruct (tickers w !! t); simpl in Hk'; by inversion Hk'.
Qed.

(** What the delete handler does when the ticker is there.  For a delete
    request with well-formed identifiers: when the
    Subscription Registry holds a record under the derived key, with its
    ticker attached, and the builder accepts the response,
    [RICSubscriptionDelete] returns the delete-success response and stops
    that ticker; from then on no tick wakes the report task of this
    subscription and, whatever follows, the task sends no further
    indication.  When the registry holds no record under the key, the call
    fails with NotFound, returns no response and changes nothing. *)
Theorem RICSubscriptionDelete_stops_ticker
    (request : RicsubscriptionDeleteRequest E) (w : World) (r f i : Z) :
  DeleteGetRequesterID E request = Ok r ->
  DeleteGetRanFunctionID E request = Ok f ->
  DeleteGetRicInstanceID E request = Ok i ->
  (forall sub t response,
     subStore w !! Subscriptions.NewID i r f = Some sub ->
     Subscriptions.Ticker sub = Some t ->
     BuildSubscriptionDeleteResponse E
       {| delReqID := r; delRanFuncID := f; delRicInstanceID := i |}
       = Ok response ->
     exists w',
       RICSubscriptionDelete E request w =
         Some ((Some response, None, None), w') /\
       subStore w' = subStore w /\
       (forall k, tickers w' !! t = Some k ->
                  Subscriptions.running k = false) /\
       (forall subscription h m sendErr,
          reportLoop E (TickerC sendErr) w'
            (Reporting subscription (Subscriptions.NewID i r f) h m) = None) /\
       (forall subscription h m actions ch,
          sentOn (run E actions w'
                    (Reporting subscription (Subscriptions.NewID i r f) h m)).1
                 ch = sentOn w ch)) /\
  (subStore w !! Subscriptions.NewID i r f = None ->
   exists err,
     RICSubscriptionDelete E request w = Some ((None, None, Some err), w) /\
     errType err = NotFound).
Proof.
  intros Hr Hf Hi. unfold RICSubscriptionDelete. rewrite Hr, Hf, Hi.
  unfold Subscriptions.Get. split.
  - intros sub t response Hsub Ht Hbuild. rewrite Hsub, Hbuild, Ht.
    pose proof (stopTicker_stopped _ w sub t Hsub Ht) as Hstopped.
    eexists. split; [reflexivity |]. split; [done |]. split; [| split].
    + intros k Hk. by apply (Hstopped sub t k).
    + intros subscription h m sendErr. simpl. rewrite Hsub. simpl.
      rewrite Ht. simpl.
      destruct (alter _ t (tickers w) !! t) as [k |] eqn:Hk; [| done].
      simpl. by rewrite (Hstopped sub t k Hsub Ht Hk).
    + intros subscription h m actions ch. unfold sentOn.
      by rewrite (run_quiet actions (Subscriptions.NewID i r f)).
  - intros Hnone. rewrite Hnone. eauto.
Qed.

End ClientFacts.

Lemma RICSubscription_admits_witness :
  exists w',
    RICSubscription sampleE2AP reportRequest storedWorld =
      ((Some sampleSubscription, None, None), w',
       Some {| interval := 1000; subscription := sampleSubscription |}) /\
    subStore w' = subStore storedWorld.
Proof.
  destruct (RICSubscription_admits sampleE2AP reportRequest storedWorld
              11 2 1 1000 sampleSubscription)
    as (w' & subscription & Hrun & Hbuild & _ & Hstore & _);
    try reflexivity.
  { constructor. reflexivity. }
  exists w'. inversion Hbuild; subst subscription. by split.
Defined.

(** C1 (as stated, refuted).  On a program whose Subscription Registry is
    empty, [RICSubscription] answers the request with a subscription-success
    response and starts the report task, yet the registry still is empty:
    the lookup of the derived key (1, 11, 2) fails with NotFound, and so does
    the report task when it runs, which returns that error and attaches no
    ticker. *)
Lemma RICSubscription_stores_nothing :
  exists response w',
    RICSubscription sampleE2AP reportRequest emptyWorld =
      ((Some response, None, None), w',
       Some {| interval := 1000; subscription := sampleSubscription |}) /\
    Subscriptions.Get (Subscriptions.NewID 1 11 2) (subStore w') =
      Fail (errors_New NotFound "subscription not found") /\
    (reportIndication sampleE2AP sampleSM 1000 sampleSubscription w').2 =
      Returned (Some (errors_New NotFound "subscription not found")) /\
    subStore (reportIndication sampleE2AP sampleSM 1000 sampleSubscription w').1
      = ∅.
Proof.
  do 2 eexists. repeat split.
Qed.

Lemma report_payload_fixed_at_start_witness :
  exists news,
    sentOn (run sampleE2AP
              [Wake (TickerC None); UEsChange oneMoreUE; Wake (TickerC None)]
              reportingWorld reportingTask).1 3 =
      sentOn storedWorld 3 ++ news /\
    Forall (fun pdu =>
              Indication.RicindicationHeader pdu = [x90] /\
              Indication.RicindicationMessage pdu = [x01]) news.
Proof.
  destruct (report_payload_fixed_at_start sampleE2AP sampleSM 1000
              sampleSubscription sampleSubscription storedWorld reportingWorld
              (Subscriptions.NewID 1 11 2) [x90] [x01]
              [Wake (TickerC None); UEsChange oneMoreUE; Wake (TickerC None)])
    as (_ & _ & _ & Hsent).
  { vm_compute. reflexivity. }
  exact (Hsent 3%nat).
Defined.

(** C2 (as stated, refuted).  The report task of the subscription
    (1, 11, 2) is in its loop; the registry holds one UE.  A first tick sends
    an indication; a UE joins the registry, which now holds two; a second
    tick sends an indication with the same message as the first, the one
    encoded for one UE, although the encoder writes two UEs differently. *)
Lemma later_ticks_repeat_first_payload :
  exists wa w2 pdu1 pdu2,
    run sampleE2AP [Wake (TickerC None)] reportingWorld reportingTask
      = (wa, reportingTask) /\
    run sampleE2AP [Wake (TickerC None)]
        (set_ueStore (oneMoreUE (ueStore wa)) wa) reportingTask
      = (w2, reportingTask) /\
    Ues.GetUECount (ueStore wa) = 1 /\
    Ues.GetUECount (ueStore w2) = 2 /\
    sentOn wa 3 = [pdu1] /\
    sentOn w2 3 = [pdu1; pdu2] /\
    Indication.RicindicationMessage pdu1 = [x01] /\
    Indication.RicindicationMessage pdu2 = [x01] /\
    MessageToAsn1Bytes sampleE2AP {| numberOfActiveUes := 1 |}
      = Ok [x01] /\
    MessageToAsn1Bytes sampleE2AP {| numberOfActiveUes := 2 |}
      = Ok [x02].
Proof.
  do 4 eexists. repeat split; vm_compute; reflexivity.
Qed.

Lemma RICSubscriptionDelete_stops_ticker_witness :
  exists w',
    RICSubscriptionDelete sampleE2AP reportRequest reportingWorld =
      Some ((Some {| delReqID := 11; delRanFuncID := 2;
                     delRicInstanceID := 1 |}, None, None), w') /\
    reportLoop sampleE2AP (TickerC None) w' reportingTask = None /\
    sentOn (run sampleE2AP [Wake (TickerC None); Wake ContextDone]
                w' reportingTask).1 3 = [] /\
    exists err,
      RICSubscriptionDelete sampleE2AP reportRequest emptyWorld =
        Some ((None, None, Some err), emptyWorld) /\
      errType err = NotFound.
Proof.
  destruct (RICSubscriptionDelete_stops_ticker sampleE2AP reportRequest
              reportingWorld 11 2 1) as [Hlive _]; try reflexivity.
  destruct (RICSubscriptionDelete_stops_ticker sampleE2AP reportRequest
              emptyWorld 11 2 1) as [_ Habsent]; try reflexivity.
  edestruct Hlive as (w' & Hrun & _ & _ & Hloop & Hsent);
    [reflexivity | reflexivity | reflexivity |].
  exists w'. split; [exact Hrun |]. split; [apply Hloop |].
  split; [apply Hsent |]. apply Habsent. reflexivity.
Defined.

(** C6 (code bug).  A Subscription exists under the derived key (1, 11, 2),
    yet [RICSubscriptionDelete] neither returns a delete-success response
    nor stops a timer: [sub.Ticker.Stop()] is called on the nil ticker of
    the record and panics.  This is so on the record as it was stored,
    before the report task has attached its ticker, and it stays so for ever
    when the report task returns before attaching one, here because the
    header encoder fails. *)
Theorem RICSubscriptionDelete_panics_without_ticker :
  Subscriptions.Get (Subscriptions.NewID 1 11 2) (subStore storedWorld)
    = Ok storedRecord /\
  RICSubscriptionDelete sampleE2AP reportRequest storedWorld = None /\
  exists w1 err,
    reportIndication failingEncoderE2AP sampleSM 1000 sampleSubscription
                     storedWorld = (w1, Returned (Some err)) /\
    Subscriptions.Get (Subscriptions.NewID 1 11 2) (subStore w1)
      = Ok storedRecord /\
    RICSubscriptionDelete failingEncoderE2AP reportRequest w1 = None.
Proof.
  split; [reflexivity |]. split; [reflexivity |].
  do 2 eexists. split; [reflexivity |]. split; reflexivity.
Qed.

Lemma RICSubscription_rejects_unsupported_witness :
  RICSubscription sampleE2AP insertRequest emptyWorld =
    ((None,
      Some {| reqID := 11; ranFuncID := 2; ricInstanceID := 1;
              ricActionsAccepted := []; ricActionsNotAdmitted := ∅;
              cause := Some (Cause_RicRequest
                               CAUSE_RICREQUEST_ACTION_NOT_SUPPORTED) |},
      None), emptyWorld, None) /\
  exists err,
    Subscriptions.Get (Subscriptions.NewID 1 11 2) (subStore emptyWorld)
      = Fail err /\
    errType err = NotFound.
Proof.
  destruct (RICSubscription_rejects_unsupported sampleE2AP insertRequest
              emptyWorld 11 2 1
              {| reqID := 11; ranFuncID := 2; ricInstanceID := 1;
                 ricActionsAccepted := []; ricActionsNotAdmitted := ∅;
                 cause := Some (Cause_RicRequest
                                  CAUSE_RICREQUEST_ACTION_NOT_SUPPORTED) |})
    as (w' & Hrun & Hstore & Hget); try reflexivity.
  { constructor; [by left |]. constructor; [by right |]. constructor. }
  split; [reflexivity |].
  destruct (Hget eq_refl) as (err & Herr & Htype).
  exists err. rewrite <- Hstore. by split.
Defined.

(** *** More on admission *)

Lemma admitActions_notAdmitted (actionList : list RicAction) (acc : list Z)
    (rej : gmap Z Cause) (k : Z) :
  (Exists (asksRejected k) actionList ->
   (admitActions actionList acc rej).2 !! k =
     Some (Cause_RicRequest CAUSE_RICREQUEST_ACTION_NOT_SUPPORTED)) /\
  (~ Exists (asksRejected k) actionList ->
   (admitActions actionList acc rej).2 !! k = rej !! k).
Proof.
  revert acc rej. induction actionList as [| a l IH]; intros acc rej; simpl.
  - split; [by intros H%Exists_nil | done].
  - set (acc' := if decide (RicActionType a = RICACTION_TYPE_REPORT)
                 then acc ++ [RicActionId a] else acc).
    destruct (decide (RicActionType a = RICACTION_TYPE_INSERT \/
                      RicActionType a = RICACTION_TYPE_POLICY)) as [Hty | Hty].
    + destruct (IH acc' (<[RicActionId a :=
                             Cause_RicRequest
                               CAUSE_RICREQUEST_ACTION_NOT_SUPPORTED]> rej))
        as [Hyes Hno].
      split.
      * intros Hex. destruct (decide (Exists (asksRejected k) l)) as [Hl | Hl];
          [by apply Hyes |].
        rewrite (Hno Hl). apply Exists_cons in Hex as [[<- _] | Hex]; [| done].
        apply lookup_insert_eq.
      * intros Hnex. rewrite Hno.
        -- apply lookup_insert_ne. intros Heq. apply Hnex. left. by split.
        -- intros Hl. apply Hnex. by right.
    + destruct (IH acc' rej) as [Hyes Hno]. split.
      * intros Hex. apply Exists_cons in Hex as [[_ Hty'] | Hex]; [done |].
        by apply Hyes.
      * intros Hnex. apply Hno. intros Hl. apply Hnex. by right.
Qed.

(** The admission loop sorts the requested actions by type alone: the
    accepted ids are those of the report actions, in request order; an id is
    in the map of rejected actions, with cause "action not supported",
    exactly when some insert or policy action carries it; an action of any
    other type is neither accepted nor rejected. *)
Theorem admission_by_type (actionList : list RicAction) (k : Z) :
  (admitActions actionList [] ∅).1 =
    RicActionId <$>
      filter (fun a => RicActionType a = RICACTION_TYPE_REPORT) actionList /\
  ((admitActions actionList [] ∅).2 !! k =
     Some (Cause_RicRequest CAUSE_RICREQUEST_ACTION_NOT_SUPPORTED) <->
   Exists (asksRejected k) actionList) /\
  ((admitActions actionList [] ∅).2 !! k = None <->
   ~ Exists (asksRejected k) actionList).
Proof.
  split; [apply admitActions_accepted |].
  destruct (admitActions_notAdmitted actionList [] ∅ k) as [Hyes Hno].
  destruct (decide (Exists (asksRejected k) actionList)) as [Hex | Hnex].
  - rewrite (Hyes Hex). split; split; done.
  - rewrite (Hno Hnex), lookup_empty. split; split; done.
Qed.

(** Settles what an answer of the handler holds and what it leaves out. *)
Ltac outcome :=
  simpl; repeat split;
  first [ done | by intros [? [=]] | by eauto ].

Section ClientExtras.

Context (E : E2AP) (sm : ServiceModel).

(** *** The shape of the subscribe handler's answers *)

(** Whatever the request and the collaborators' answers, [RICSubscription]
    leaves the state as it is, starts a report task exactly when it returns a
    response, never returns a response together with a failure or an error,
    and never returns a failure together with an error. *)
Theorem RICSubscription_outcomes (request : RicsubscriptionRequest E)
    (w : World) :
  (RICSubscription E request w).1.2 = w /\
  (is_Some (RICSubscription E request w).2 <->
   is_Some (RICSubscription E request w).1.1.1.1) /\
  (is_Some (RICSubscription E request w).1.1.1.1 ->
   (RICSubscription E request w).1.1.1.2 = None /\
   (RICSubscription E request w).1.1.2 = None) /\
  (is_Some (RICSubscription E request w).1.1.1.2 ->
   (RICSubscription E request w).1.1.2 = None).
Proof.
  unfold RICSubscription.
  destruct (GetRequesterID E request); [| by outcome].
  destruct (GetRanFunctionID E request); [| by outcome].
  destruct (GetRicInstanceID E request); [| by outcome].
  destruct (admitActions _ [] ∅) as [accepted notAdmitted].
  destruct (decide _).
  { destruct (BuildSubscriptionFailure E _); by outcome. }
  destruct (getReportPeriod E request).
  - destruct (BuildSubscriptionResponse E _); by outcome.
  - destruct (BuildSubscriptionFailure E _); by outcome.
Qed.

(** When at least one report action is asked for but no report period can
    be read from the request, [RICSubscription] answers with the failure
    built with cause "unspecified" and a nil error, and starts no report
    task; if that failure cannot be built either, the builder's error is
    dropped and the handler returns neither response nor failure nor
    error. *)
Theorem RICSubscription_unreadable_period
    (request : RicsubscriptionRequest E) (w : World) (r f i : Z)
    (err : error) :
  GetRequesterID E request = Ok r ->
  GetRanFunctionID E request = Ok f ->
  GetRicInstanceID E request = Ok i ->
  Exists (fun a => RicActionType a = RICACTION_TYPE_REPORT)
         (GetRicActionToBeSetupList E request) ->
  getReportPeriod E request = Fail err ->
  (forall failure,
     BuildSubscriptionFailure E
       {| reqID := r; ranFuncID := f; ricInstanceID := i;
          ricActionsAccepted := []; ricActionsNotAdmitted := ∅;
          cause := Some (Cause_RicRequest CAUSE_RICREQUEST_UNSPECIFIED) |}
       = Ok failure ->
     RICSubscription E request w = ((None, Some failure, None), w, None)) /\
  (forall err',
     BuildSubscriptionFailure E
       {| reqID := r; ranFuncID := f; ricInstanceID := i;
          ricActionsAccepted := []; ricActionsNotAdmitted := ∅;
          cause := Some (Cause_RicRequest CAUSE_RICREQUEST_UNSPECIFIED) |}
       = Fail err' ->
     RICSubscription E request w = ((None, None, None), w, None)).
Proof.
  intros Hr Hf Hi Hex Hperiod.
  unfold RICSubscription. rewrite Hr, Hf, Hi.
  pose proof (admitActions_accepted (GetRicActionToBeSetupList E request) [] ∅)
    as Hacc.
  destruct (admitActions _ [] ∅) as [accepted notAdmitted] eqn:Hadmit.
  simpl in Hacc. subst accepted.
  destruct (decide _) as [Hzero | _].
  { by apply filter_report_nonempty in Hex. }
  rewrite Hperiod. apply_options.
  split; intros x Hbuild; by rewrite Hbuild.
Qed.

End ClientExtras.

Lemma RICSubscription_unreadable_period_witness :
  RICSubscription sampleE2AP periodlessRequest emptyWorld =
    ((None,
      Some {| reqID := 11; ranFuncID := 2; ricInstanceID := 1;
              ricActionsAccepted := []; ricActionsNotAdmitted := ∅;
              cause := Some (Cause_RicRequest CAUSE_RICREQUEST_UNSPECIFIED) |},
      None), emptyWorld, None).
Proof.
  destruct (RICSubscription_unreadable_period sampleE2AP periodlessRequest
              emptyWorld 11 2 1 (errors_New Invalid "no report period"))
    as [Hbuilt _];
    [reflexivity | reflexivity | reflexivity | by constructor | reflexivity |].
  by apply Hbuilt.
Defined.

(** *** Starting the report task *)

Section ReportExtras.

Context (E : E2AP) (sm : ServiceModel).

Lemma reportIndication_reaches_loop (period : Z) (subscription : Subscription)
    (w : World) (sub : Subscriptions.Subscription) (h m : list byte) :
  0 <= GnbID sm < 2 ^ 64 ->
  HeaderToAsn1Bytes E (reportHeader sm) = Ok h ->
  MessageToAsn1Bytes E (reportMessage w) = Ok m ->
  subStore w !! keyOf subscription = Some sub ->
  0 < tickerPeriod period ->
  reportIndication E sm period subscription w =
    (set_subStore
       (<[keyOf subscription :=
            Subscriptions.setTicker (fresh (dom (tickers w))) sub]> (subStore w))
       (set_tickers
          (<[fresh (dom (tickers w)) :=
               {| Subscriptions.period := tickerPeriod period;
                  Subscriptions.running := true |}]> (tickers w))
          (log_encoding (EncodedMessage (reportMessage w))
             (log_encoding (EncodedHeader (reportHeader sm)) w))),
     Reporting subscription (keyOf subscription) h m).
Proof.
  intros Hg Hh Hm Hsub Hp. unfold reportIndication, parseGnbID.
  destruct (decide (0 <= GnbID sm < 2 ^ 64)); [| done].
  fold (reportHeader sm). rewrite Hh. simpl.
  fold (reportMessage w). rewrite Hm.
  unfold Subscriptions.Get. fold (keyOf subscription). simpl. rewrite Hsub.
  fold (tickerPeriod period).
  destruct (decide (tickerPeriod period <= 0)); [lia | done].
Qed.

Lemma tickerPeriod_int32 (period : Z) :
  - 2 ^ 31 <= period < 2 ^ 31 -> tickerPeriod period = period * 1000000.
Proof.
  intros Hp. unfold tickerPeriod, int64.
  rewrite (Z.mod_small (period + 2 ^ 63)) by lia.
  rewrite Z.mod_small; lia.
Qed.

(** When the node's gNB id is a [uint64], both encoders accept, the record
    of the subscription is in the Subscription Registry and the report period
    gives a positive duration, [reportIndication] reaches its loop: it has
    created a new ticker, running, whose period is the report period in
    nanoseconds (a million times the [int32] period), and made the stored
    record point to it; nothing else in the registry or among the tickers
    has changed, nothing has been sent and the UE store is as it was. *)
Theorem reportIndication_attaches_ticker (period : Z)
    (subscription : Subscription) (w : World)
    (sub : Subscriptions.Subscription) (h m : list byte) :
  0 <= GnbID sm < 2 ^ 64 ->
  HeaderToAsn1Bytes E (reportHeader sm) = Ok h ->
  MessageToAsn1Bytes E (reportMessage w) = Ok m ->
  subStore w !! keyOf subscription = Some sub ->
  0 < tickerPeriod period ->
  exists t w1,
    reportIndication E sm period subscription w =
      (w1, Reporting subscription (keyOf subscription) h m) /\
    tickers w !! t = None /\
    tickers w1 =
      <[t := {| Subscriptions.period := tickerPeriod period;
                Subscriptions.running := true |}]> (tickers w) /\
    (- 2 ^ 31 <= period < 2 ^ 31 -> tickerPeriod period = period * 1000000) /\
    subStore w1 =
      <[keyOf subscription := Subscriptions.setTicker t sub]> (subStore w) /\
    Subscriptions.ID (Subscriptions.setTicker t sub) = Subscriptions.ID sub /\
    Subscriptions.E2Channel (Subscriptions.setTicker t sub)
      = Subscriptions.E2Channel sub /\
    e2sent w1 = e2sent w /\ ueStore w1 = ueStore w.
Proof.
  intros Hg Hh Hm Hsub Hp.
  exists (fresh (dom (tickers w))). eexists.
  split; [by apply (reportIndication_reaches_loop period subscription w sub) |].
  split; [apply not_elem_of_dom, is_fresh |]. simpl.
  split; [done |]. split; [apply tickerPeriod_int32 | done].
Qed.

(** Where starting the report task stops short of the loop (the gNB id
    being a [uint64] and both encoders accepting): without a record of the
    subscription in the Subscription Registry [reportIndication] returns the
    registry's NotFound error, after having encoded the header and the
    message in vain; with a record but a report period that gives no positive
    duration it panics in [time.NewTicker].  In both cases no ticker is
    created, the registry is untouched and nothing is sent. *)
Theorem reportIndication_stops_short (period : Z)
    (subscription : Subscription) (w : World) (h m : list byte) :
  0 <= GnbID sm < 2 ^ 64 ->
  HeaderToAsn1Bytes E (reportHeader sm) = Ok h ->
  MessageToAsn1Bytes E (reportMessage w) = Ok m ->
  (subStore w !! keyOf subscription = None ->
   exists w1 err,
     reportIndication E sm period subscription w = (w1, Returned (Some err)) /\
     errType err = NotFound /\
     encoded w1 =
       encoded w ++ [EncodedHeader (reportHeader sm);
                     EncodedMessage (reportMessage w)] /\
     tickers w1 = tickers w /\ subStore w1 = subStore w /\
     e2sent w1 = e2sent w) /\
  (is_Some (subStore w !! keyOf subscription) -> tickerPeriod period <= 0 ->
   exists w1,
     reportIndication E sm period subscription w = (w1, Panicked) /\
     tickers w1 = tickers w /\ subStore w1 = subStore w /\
     e2sent w1 = e2sent w).
Proof.
  intros Hg Hh Hm. unfold reportIndication, parseGnbID.
  destruct (decide (0 <= GnbID sm < 2 ^ 64)); [| done].
  fold (reportHeader sm). rewrite Hh. simpl.
  fold (reportMessage w). rewrite Hm.
  unfold Subscriptions.Get. fold (keyOf subscription). simpl. split.
  - intros Hnone. rewrite Hnone. do 2 eexists. split; [reflexivity |].
    simpl. by rewrite <- app_assoc.
  - intros [sub Hsub] Hp. rewrite Hsub. fold (tickerPeriod period).
    destruct (decide (tickerPeriod period <= 0)); [| lia].
    eexists. split; [reflexivity | done].
Qed.

(** *** The rounds of the loop *)

Lemma tick_sends (subscription : Subscription) (id : Z * Z * Z)
    (h m : list byte) (w : World) (sub : Subscriptions.Subscription)
    (t : nat) (k : Subscriptions.time_Ticker) :
  subStore w !! id = Some sub -> Subscriptions.Ticker sub = Some t ->
  tickers w !! t = Some k -> Subscriptions.running k = true ->
  Validate E (reportOf subscription h m) = None ->
  reportLoop E (TickerC None) w (Reporting subscription id h m) =
    Some (set_e2sent
            (<[Subscriptions.E2Channel sub :=
                 sentOn w (Subscriptions.E2Channel sub)
                 ++ [reportOf subscription h m]]> (e2sent w)) w,
          Reporting subscription id h m).
Proof.
  intros Hsub Ht Hk Hrun Hval. simpl. rewrite Hsub. simpl. rewrite Ht. simpl.
  rewrite Hk. simpl. rewrite Hrun. unfold Build.
  change (Indication.CreateIndication _) with (reportOf subscription h m).
  by rewrite Hval.
Qed.

(** A tick of a running ticker whose indication is built and sent without
    error puts exactly one indication on the E2 channel of the subscription's
    record, after those sent before: it carries the requester, instance and
    function ids of the subscription and the header and the message the task
    holds.  Other channels, the registry, the tickers and the UE store are
    untouched, and the task stays in its loop. *)
Theorem tick_sends_one_report (subscription : Subscription) (id : Z * Z * Z)
    (h m : list byte) (w : World) (sub : Subscriptions.Subscription)
    (t : nat) (k : Subscriptions.time_Ticker) :
  subStore w !! id = Some sub -> Subscriptions.Ticker sub = Some t ->
  tickers w !! t = Some k -> Subscriptions.running k = true ->
  Validate E (reportOf subscription h m) = None ->
  exists w' pdu,
    reportLoop E (TickerC None) w (Reporting subscription id h m) =
      Some (w', Reporting subscription id h m) /\
    sentOn w' (Subscriptions.E2Channel sub) =
      sentOn w (Subscriptions.E2Channel sub) ++ [pdu] /\
    Indication.RicRequestorId pdu = reqID subscription /\
    Indication.RicInstanceId pdu = ricInstanceID subscription /\
    Indication.RanfunctionId pdu = ranFuncID subscription /\
    Indication.RicindicationHeader pdu = h /\
    Indication.RicindicationMessage pdu = m /\
    (forall ch, ch <> Subscriptions.E2Channel sub ->
                sentOn w' ch = sentOn w ch) /\
    subStore w' = subStore w /\ tickers w' = tickers w /\
    ueStore w' = ueStore w.
Proof.
  intros Hsub Ht Hk Hrun Hval.
  eexists. exists (reportOf subscription h m).
  split; [by eapply tick_sends |].
  split; [| repeat (split; [reflexivity |]); split; [| done]].
  - rewrite sentOn_set_e2sent. by destruct (decide _).
  - intros ch Hch. rewrite sentOn_set_e2sent.
    destruct (decide _); [congruence | done].
Qed.

Lemma run_returned (actions : list Action) (w : World) (err : option error) :
  (run E actions w (Returned err)).2 = Returned err /\
  e2sent (run E actions w (Returned err)).1 = e2sent w /\
  tickers (run E actions w (Returned err)).1 = tickers w /\
  subStore (run E actions w (Returned err)).1 = subStore w.
Proof.
  revert w. induction actions as [| a actions IH]; intros w; [done |].
  destruct a as [wakeup | g]; simpl; [apply IH |].
  destruct (IH (set_ueStore (g (ueStore w)) w)) as (-> & -> & -> & ->). done.
Qed.

(** How a report task ends.  On a tick of its running ticker, an indication
    that the encoder refuses or a send that fails makes the task return the
    error with nothing sent and with its ticker still running; the end of the
    session makes it stop its ticker and return nil.  Once the task has
    returned, its wake-ups and the changes of the UE registry send nothing
    more and change no ticker: a failed report is not retried, and the task
    does not stop the ticker it left running. *)
Theorem report_task_ends (subscription : Subscription) (id : Z * Z * Z)
    (h m : list byte) (w : World) (sub : Subscriptions.Subscription)
    (t : nat) (k : Subscriptions.time_Ticker) :
  subStore w !! id = Some sub -> Subscriptions.Ticker sub = Some t ->
  tickers w !! t = Some k -> Subscriptions.running k = true ->
  (forall err sendErr,
     Validate E (reportOf subscription h m) = Some err ->
     reportLoop E (TickerC sendErr) w (Reporting subscription id h m) =
       Some (w, Returned (Some err))) /\
  (forall err,
     Validate E (reportOf subscription h m) = None ->
     reportLoop E (TickerC (Some err)) w (Reporting subscription id h m) =
       Some (w, Returned (Some err))) /\
  (reportLoop E ContextDone w (Reporting subscription id h m) =
     Some (stopTicker t w, Returned None) /\
   tickers (stopTicker t w) !! t =
     Some {| Subscriptions.period := Subscriptions.period k;
             Subscriptions.running := false |}) /\
  (forall err actions,
     e2sent (run E actions w (Returned err)).1 = e2sent w /\
     tickers (run E actions w (Returned err)).1 = tickers w).
Proof.
  intros Hsub Ht Hk Hrun.
  split; [| split; [| split]].
  - intros err sendErr Hval. simpl. rewrite Hsub. simpl. rewrite Ht. simpl.
    rewrite Hk. simpl. rewrite Hrun. unfold Build.
    change (Indication.CreateIndication _) with (reportOf subscription h m).
    by rewrite Hval.
  - intros err Hval. simpl. rewrite Hsub. simpl. rewrite Ht. simpl.
    rewrite Hk. simpl. rewrite Hrun. unfold Build.
    change (Indication.CreateIndication _) with (reportOf subscription h m).
    by rewrite Hval.
  - split.
    + simpl. rewrite Hsub. simpl. rewrite Ht. simpl. by rewrite Hk.
    + simpl. by rewrite lookup_alter_eq, Hk.
  - intros err actions.
    destruct (run_returned actions w err) as (_ & He & Htk & _). by split.
Qed.

(** *** Deleting twice *)

Lemma stopTicker_twice (t : nat) (w : World) :
  stopTicker t (stopTicker t w) = stopTicker t w.
Proof.
  unfold stopTicker, set_tickers. simpl. f_equal.
  apply map_eq. intros j. destruct (decide (j = t)) as [-> | Hne].
  - rewrite !lookup_alter_eq. by destruct (tickers w !! t).
  - by rewrite !lookup_alter_ne.
Qed.

(** [RICSubscriptionDelete] never removes the record: after a successful
    delete (identifiers readable, record stored with its ticker attached,
    response accepted by the builder) the lookup of the key still answers the
    same record, and the same delete request succeeds again, with the same
    response and without changing anything further. *)
Theorem RICSubscriptionDelete_repeatable
    (request : RicsubscriptionDeleteRequest E) (w : World) (r f i : Z)
    (sub : Subscriptions.Subscription) (t : nat)
    (response : RicsubscriptionDeleteResponse E) :
  DeleteGetRequesterID E request = Ok r ->
  DeleteGetRanFunctionID E request = Ok f ->
  DeleteGetRicInstanceID E request = Ok i ->
  subStore w !! Subscriptions.NewID i r f = Some sub ->
  Subscriptions.Ticker sub = Some t ->
  BuildSubscriptionDeleteResponse E
    {| delReqID := r; delRanFuncID := f; delRicInstanceID := i |}
    = Ok response ->
  exists w',
    RICSubscriptionDelete E request w = Some ((Some response, None, None), w') /\
    Subscriptions.Get (Subscriptions.NewID i r f) (subStore w') = Ok sub /\
    RICSubscriptionDelete E request w' = Some ((Some response, None, None), w').
Proof.
  intros Hr Hf Hi Hsub Ht Hbuild.
  exists (stopTicker t w). unfold RICSubscriptionDelete.
  rewrite Hr, Hf, Hi. unfold Subscriptions.Get. simpl.
  rewrite Hsub, Hbuild, Ht. by rewrite stopTicker_twice.
Qed.

(** *** From subscribe to delete *)


End ReportExtras.


Lemma reportIndication_attaches_ticker_witness :
  exists t w1,
    reportIndication sampleE2AP sampleSM 1000 sampleSubscription storedWorld =
      (w1, reportingTask) /\
    tickers w1 !! t =
      Some {| Subscriptions.period := 1000000000;
              Subscriptions.running := true |} /\
    subStore w1 !! Subscriptions.NewID 1 11 2 =
      Some (Subscriptions.setTicker t storedRecord).
Proof.
  destruct (reportIndication_attaches_ticker sampleE2AP sampleSM 1000
              sampleSubscription storedWorld storedRecord [x90] [x01])
    as (t & w1 & Hrun & _ & Htk & Hper & Hst & _);
    [simpl; lia | reflexivity | reflexivity | reflexivity | reflexivity |].
  exists t, w1. split; [exact Hrun |]. split.
  - rewrite Htk, lookup_insert_eq, Hper; [done | lia].
  - rewrite Hst. apply lookup_insert_eq.
Defined.

Lemma reportIndication_stops_short_witness :
  (exists w1 err,
     reportIndication sampleE2AP sampleSM 1000 sampleSubscription emptyWorld =
       (w1, Returned (Some err)) /\
     errType err = NotFound /\ tickers w1 = ∅) /\
  (exists w1,
     reportIndication sampleE2AP sampleSM 0 sampleSubscription storedWorld =
       (w1, Panicked) /\
     tickers w1 = ∅).
Proof.
  split.
  - destruct (reportIndication_stops_short sampleE2AP sampleSM 1000
                sampleSubscription emptyWorld [x90] [x01])
      as [Habsent _]; [simpl; lia | reflexivity | reflexivity |].
    destruct Habsent as (w1 & err & Hrun & Hty & _ & Htk & _); [reflexivity |].
    exists w1, err. by rewrite Htk.
  - destruct (reportIndication_stops_short sampleE2AP sampleSM 0
                sampleSubscription storedWorld [x90] [x01])
      as [_ Hpanic]; [simpl; lia | reflexivity | reflexivity |].
    destruct Hpanic as (w1 & Hrun & Htk & _);
      [by exists storedRecord | by vm_compute |].
    exists w1. by rewrite Htk.
Defined.

Lemma tick_sends_one_report_witness :
  exists w' pdu,
    reportLoop sampleE2AP (TickerC None) reportingWorld reportingTask =
      Some (w', reportingTask) /\
    sentOn w' 3 = [pdu] /\
    Indication.RicRequestorId pdu = 11 /\
    Indication.RicInstanceId pdu = 1 /\
    Indication.RanfunctionId pdu = 2 /\
    Indication.RicindicationHeader pdu = [x90] /\
    Indication.RicindicationMessage pdu = [x01].
Proof.
  destruct (tick_sends_one_report sampleE2AP sampleSubscription
              (Subscriptions.NewID 1 11 2) [x90] [x01] reportingWorld
              (Subscriptions.setTicker 0 storedRecord) 0
              {| Subscriptions.period := 1000000000;
                 Subscriptions.running := true |})
    as (w' & pdu & Hrun & Hsent & Hreq & Hinst & Hfunc & Hh & Hm & _);
    [reflexivity | reflexivity | reflexivity | reflexivity | reflexivity |].
  exists w', pdu. split; [exact Hrun |]. split; [exact Hsent |].
  split; [exact Hreq |]. split; [exact Hinst |]. split; [exact Hfunc |].
  split; [exact Hh | exact Hm].
Defined.

Lemma report_task_ends_witness :
  reportLoop refusingE2AP (TickerC None) reportingWorld reportingTask =
    Some (reportingWorld,
          Returned (Some (errors_New Invalid "indication refused"))) /\
  reportLoop sampleE2AP (TickerC (Some (errors_New Unknown "send failed")))
             reportingWorld reportingTask =
    Some (reportingWorld,
          Returned (Some (errors_New Unknown "send failed"))) /\
  reportLoop sampleE2AP ContextDone reportingWorld reportingTask =
    Some (stopTicker 0 reportingWorld, Returned None).
Proof.
  destruct (report_task_ends refusingE2AP sampleSubscription
              (Subscriptions.NewID 1 11 2) [x90] [x01] reportingWorld
              (Subscriptions.setTicker 0 storedRecord) 0
              {| Subscriptions.period := 1000000000;
                 Subscriptions.running := true |})
    as (Hrefused & _);
    [reflexivity | reflexivity | reflexivity | reflexivity |].
  destruct (report_task_ends sampleE2AP sampleSubscription
              (Subscriptions.NewID 1 11 2) [x90] [x01] reportingWorld
              (Subscriptions.setTicker 0 storedRecord) 0
              {| Subscriptions.period := 1000000000;
                 Subscriptions.running := true |})
    as (_ & Hfailed & [Hdone _] & _);
    [reflexivity | reflexivity | reflexivity | reflexivity |].
  split; [by apply Hrefused |]. split; [by apply Hfailed | exact Hdone].
Defined.

Lemma RICSubscriptionDelete_repeatable_witness :
  exists w',
    RICSubscriptionDelete sampleE2AP reportRequest reportingWorld =
      Some ((Some {| delReqID := 11; delRanFuncID := 2;
                     delRicInstanceID := 1 |}, None, None), w') /\
    RICSubscriptionDelete sampleE2AP reportRequest w' =
      Some ((Some {| delReqID := 11; delRanFuncID := 2;
                     delRicInstanceID := 1 |}, None, None), w').
Proof.
  destruct (RICSubscriptionDelete_repeatable sampleE2AP reportRequest
              reportingWorld 11 2 1 (Subscriptions.setTicker 0 storedRecord) 0
              {| delReqID := 11; delRanFuncID := 2; delRicInstanceID := 1 |})
    as (w' & Hfirst & _ & Hsecond);
    [reflexivity | reflexivity | reflexivity | reflexivity | reflexivity
    | reflexivity |].
  exists w'. by split.
Defined.


End KpmFacts.

(* ===================================================================== *)
(** ** Properties of the indication builder *)
(* ===================================================================== *)

Module IndicationFacts.

Import Indication.

Lemma NewIndication_snoc (settings : list Setting) (s : Setting) :
  NewIndication (optionOf <$> (settings ++ [s])) =
  optionOf s (NewIndication (optionOf <$> settings)).
Proof. unfold NewIndication. by rewrite fmap_app, foldl_app. Qed.

Lemma lastSet_snoc {A : Type} (pick : Setting -> option A) (zero : A)
    (settings : list Setting) (s : Setting) :
  lastSet pick zero (settings ++ [s]) =
  match pick s with
  | Some x => x
  | None => lastSet pick zero settings
  end.
Proof.
  unfold lastSet. rewrite omap_app. simpl.
  destruct (pick s) as [x |]; simpl.
  - by rewrite last_snoc.
  - by rewrite app_nil_r.
Qed.

(** Whatever options of the package are passed to [NewIndication], in
    whatever number and order, the message [CreateIndication] makes of the
    result carries, for each of the requester id, the instance id, the
    function id, the header and the message, the value of the last option
    that sets it, and the zero value when no option sets it; its call
    process id is always empty, as no option sets it, and its action id is
    always 2, its sequence number always 3 and its type always report. *)
Theorem CreateIndication_of_options (settings : list Setting) :
  RicRequestorId (CreateIndication (NewIndication (optionOf <$> settings)))
    = lastSet requestIDOf 0 settings /\
  RicInstanceId (CreateIndication (NewIndication (optionOf <$> settings)))
    = lastSet ricInstanceIDOf 0 settings /\
  RanfunctionId (CreateIndication (NewIndication (optionOf <$> settings)))
    = lastSet ranFuncIDOf 0 settings /\
  RicindicationHeader
    (CreateIndication (NewIndication (optionOf <$> settings)))
    = lastSet headerOf [] settings /\
  RicindicationMessage
    (CreateIndication (NewIndication (optionOf <$> settings)))
    = lastSet messageOf [] settings /\
  RiccallProcessId (CreateIndication (NewIndication (optionOf <$> settings)))
    = [] /\
  RicactionId (CreateIndication (NewIndication (optionOf <$> settings))) = 2 /\
  RicindicationSn (CreateIndication (NewIndication (optionOf <$> settings)))
    = 3 /\
  RicindicationTypeValue
    (CreateIndication (NewIndication (optionOf <$> settings)))
    = RICINDICATION_TYPE_REPORT.
Proof.
  induction settings as [| s settings IH] using rev_ind; [done |].
  rewrite NewIndication_snoc, !lastSet_snoc.
  destruct IH as (Hreq & Hinst & Hfunc & Hh & Hm & Hcall & _).
  simpl in *. by destruct s.
Qed.

End IndicationFacts.

(* ===================================================================== *)
(** ** Properties of the E2 agent *)
(* ===================================================================== *)

Module AgentFacts.

Import Agent.

Section AgentFacts.

Context (Connect NewSetupRequest : Network -> option error)
        (E2Setup : Network -> nat -> bool * option error)
        (Close : Network -> nat -> option error).

Local Abbreviation Start' := (Start Connect NewSetupRequest E2Setup).
Local Abbreviation Stop' := (Stop Close).
Local Abbreviation StopTimes' := (StopTimes Close).

(** [Start] never closes a connection and opens at most one. *)
Lemma Start_effects (a : e2Agent) (net : Network) :
  closed (Start' a net).2 = closed net /\
  (connected (Start' a net).2 = connected net \/
   connected (Start' a net).2 = S (connected net)).
Proof.
  unfold Start. destruct (Connect net); [by split; [| left] |].
  destruct (NewSetupRequest _); [by split; [| right] |].
  destruct (E2Setup _ _) as [[|] [err |]]; by split; [| right].
Qed.

(** When [Start] of a new agent fails, the agent has recorded no channel,
    whatever stage failed, and nothing was closed.  If the failure came
    after [e2.Connect] had succeeded, the connection it opened stays open
    and unknown to the agent: a [Stop] that follows returns nil and closes
    nothing.  An error of [E2Setup] comes back with the type Unknown, even
    when a setup failure came with it; a setup failure alone comes back as
    Invalid. *)
Theorem failed_Start_leaves_connection_open (net : Network) (err : error) :
  (Start' NewE2Agent net).1.1 = Some err ->
  (Start' NewE2Agent net).1.2 = NewE2Agent /\
  closed (Start' NewE2Agent net).2 = closed net /\
  (Connect net = None ->
   connected (Start' NewE2Agent net).2 = S (connected net) /\
   Stop' (Start' NewE2Agent net).1.2 (Start' NewE2Agent net).2 =
     (None, NewE2Agent, (Start' NewE2Agent net).2) /\
   (length (setups (Start' NewE2Agent net).2) = S (length (setups net)) ->
    errType err = Unknown \/ errType err = Invalid)) /\
  (forall failure err',
     Connect net = None ->
     NewSetupRequest
       {| connected := S (connected net); setups := setups net;
          closed := closed net |} = None ->
     E2Setup
       {| connected := S (connected net); setups := setups net;
          closed := closed net |} (connected net) = (failure, Some err') ->
     errType err = Unknown) /\
  (Connect net = None ->
   NewSetupRequest
     {| connected := S (connected net); setups := setups net;
        closed := closed net |} = None ->
   E2Setup
     {| connected := S (connected net); setups := setups net;
        closed := closed net |} (connected net) = (true, None) ->
   err = errors_New Invalid "E2 setup failed").
Proof.
  unfold Start. intros Hfail.
  destruct (Connect net) as [e0 |] eqn:Hc.
  { repeat split; try done. }
  destruct (NewSetupRequest _) as [e1 |] eqn:Hn.
  { simpl in *. repeat split; try done.
    intros Hlen. lia. }
  destruct (E2Setup _ _) as [[|] [e2 |]] eqn:He; simpl in *;
    inversion Hfail; subst; clear Hfail.
  - repeat split; try done; by left.
  - repeat split; try done; by right.
  - repeat split; try done; by left.
Qed.

Lemma StopTimes_recorded (n : nat) (c : nat) (net : Network) :
  StopTimes' n {| channel := Some c |} net =
    ({| channel := Some c |},
     {| connected := connected net; setups := setups net;
        closed := closed net ++ replicate n c |}).
Proof.
  revert net. induction n as [| n IH]; intros net; simpl.
  - rewrite app_nil_r. by destruct net.
  - rewrite IH. simpl. by rewrite <- app_assoc.
Qed.

(** When [Start] succeeds, the agent records the connection it has just
    opened, in place of any it had recorded before, which [Start] does not
    close.  [Stop] closes the recorded connection and returns what [Close]
    returns, but never clears the field: [n] calls of [Stop] in a row call
    [Close] [n] times on that same connection, and on no other, and the
    agent still records it. *)
Theorem Stop_never_forgets_channel (a : e2Agent) (net : Network) (n : nat) :
  (Start' a net).1.1 = None ->
  (Start' a net).1.2 = {| channel := Some (connected net) |} /\
  connected (Start' a net).2 = S (connected net) /\
  setups (Start' a net).2 = setups net ++ [connected net] /\
  closed (Start' a net).2 = closed net /\
  (Stop' (Start' a net).1.2 (Start' a net).2).1.1 =
    Close (Start' a net).2 (connected net) /\
  (StopTimes' n (Start' a net).1.2 (Start' a net).2).1 =
    {| channel := Some (connected net) |} /\
  closed (StopTimes' n (Start' a net).1.2 (Start' a net).2).2 =
    closed net ++ replicate n (connected net).
Proof.
  unfold Start. intros Hok.
  destruct (Connect net) as [e0 |]; [done |].
  destruct (NewSetupRequest _) as [e1 |]; [done |].
  destruct (E2Setup _ _) as [[|] [e2 |]]; try done.
  simpl. rewrite StopTimes_recorded. done.
Qed.

(** An agent that has recorded no channel, like a new one or one whose
    [Start] failed, is stopped without effect: [Stop] returns nil and
    touches no connection, however often it is called. *)
Lemma StopTimes_idle (n : nat) (net : Network) :
  StopTimes' n NewE2Agent net = (NewE2Agent, net).
Proof. induction n as [| n IH]; [done |]. simpl. exact IH. Qed.

End AgentFacts.

Lemma failed_Start_leaves_connection_open_witness :
  (Start sampleConnect sampleNewSetupRequest sampleE2Setup NewE2Agent idle).1.1
    = Some (errors_New Invalid "E2 setup failed") /\
  connected
    (Start sampleConnect sampleNewSetupRequest sampleE2Setup NewE2Agent idle).2
    = 1%nat /\
  Stop sampleClose
    (Start sampleConnect sampleNewSetupRequest sampleE2Setup NewE2Agent
           idle).1.2
    (Start sampleConnect sampleNewSetupRequest sampleE2Setup NewE2Agent idle).2
    = (None, NewE2Agent,
       {| connected := 1; setups := [0%nat]; closed := [] |}).
Proof.
  destruct (failed_Start_leaves_connection_open sampleConnect
              sampleNewSetupRequest sampleE2Setup sampleClose idle
              (errors_New Invalid "E2 setup failed"))
    as (_ & _ & Hopen & _); [reflexivity |].
  destruct Hopen as (Hconn & Hstop & _); [reflexivity |].
  split; [reflexivity |]. split; [exact Hconn | exact Hstop].
Defined.

Lemma Stop_never_forgets_channel_witness :
  (Start sampleConnect sampleNewSetupRequest sampleE2Setup
         {| channel := Some 0%nat |}
         {| connected := 1; setups := [0%nat]; closed := [] |}).1.2
    = {| channel := Some 1%nat |} /\
  closed
    (StopTimes sampleClose 3
       (Start sampleConnect sampleNewSetupRequest sampleE2Setup
              {| channel := Some 0%nat |}
              {| connected := 1; setups := [0%nat]; closed := [] |}).1.2
       (Start sampleConnect sampleNewSetupRequest sampleE2Setup
              {| channel := Some 0%nat |}
              {| connected := 1; setups := [0%nat]; closed := [] |}).2).2
    = [1%nat; 1%nat; 1%nat].
Proof.
  destruct (Stop_never_forgets_channel sampleConnect sampleNewSetupRequest
              sampleE2Setup sampleClose {| channel := Some 0%nat |}
              {| connected := 1; setups := [0%nat]; closed := [] |} 3)
    as (Hrec & _ & _ & _ & _ & _ & Hclosed); [reflexivity |].
  split; [exact Hrec | exact Hclosed].
Defined.

End AgentFacts.
